(** * Mystic Duel server engine: a shallow embedding of the card and match
    rules of [Card.js] and [ServerGame.js], and proofs of their properties. *)

From Stdlib Require Import String Ascii ZArith List Bool Lia Permutation.
Import ListNotations.
Open Scope string_scope.
Open Scope Z_scope.

(** ** JavaScript string and number helpers used by the engine *)

(** [prefixb p s]: [s.startsWith(p)]. *)
Fixpoint prefixb (p s : string) : bool :=
  match p, s with
  | EmptyString, _ => true
  | String a p', String b s' => Ascii.eqb a b && prefixb p' s'
  | _, _ => false
  end.

(** [includes s sub]: [s.includes(sub)]. *)
Fixpoint includes (s sub : string) : bool :=
  prefixb sub s ||
  match s with
  | EmptyString => false
  | String _ s' => includes s' sub
  end.

Definition is_digit (a : ascii) : bool :=
  let n := nat_of_ascii a in (48 <=? n)%nat && (n <=? 57)%nat.

Fixpoint take_digits (s : string) : string :=
  match s with
  | String a s' => if is_digit a then String a (take_digits s') else EmptyString
  | EmptyString => EmptyString
  end.

(** [match_digits s]: [s.match(/\d+/)?.[0]], the first maximal run of
    decimal digits, or [None] when the match is [null]. *)
Fixpoint match_digits (s : string) : option string :=
  match s with
  | EmptyString => None
  | String a s' => if is_digit a then Some (take_digits s) else match_digits s'
  end.

Fixpoint parse_digits (s : string) (acc : Z) : Z :=
  match s with
  | EmptyString => acc
  | String a s' => parse_digits s' (10 * acc + Z.of_nat (nat_of_ascii a - 48))
  end.

(** [parseInt] on a string of decimal digits. *)
Definition parseInt (s : string) : Z := parse_digits s 0.

Fixpoint digits_of (fuel : nat) (n : Z) (acc : string) : string :=
  match fuel with
  | O => acc
  | S f =>
      let acc' := String (ascii_of_nat (48 + Z.to_nat (n mod 10))) acc in
      if Z.ltb n 10 then acc' else digits_of f (n / 10) acc'
  end.

(** Decimal rendering of an integer in a template literal [`${n}`]. *)
Definition Z_to_string (z : Z) : string :=
  if Z.ltb z 0 then "-" ++ digits_of 32 (- z) "" else digits_of 32 z "".

Definition streq (a b : string) : bool := String.eqb a b.

(** ** [Card.js] *)

Module Card.

(** A card instance: the template fields copied by [Object.assign] and the
    status flags the constructor defaults with [??].  Spells carry no
    [attack]/[health] in the catalog; they are 0 here and never read. *)
Record t := mk {
  id : string;
  name : string;
  cost : Z;
  type : string;
  attack : Z;
  health : Z;
  maxHealth : Z;
  ability : string;
  emoji : string;
  rarity : string;
  tapped : bool;
  frozen : bool;
  hasAttackedThisTurn : bool;
  doubleStrikeUsed : bool;
  windfuryUsed : bool;
  canOnlyAttackCreatures : bool;
  stealth : bool;
  divineShield : bool;
  spellShield : bool;
  vigilance : bool;
  immune : bool;
  tempImmune : bool;
  taunt : bool;
  instantKill : bool;
  enraged : bool
}.

Definition set_attack (v : Z) (c : t) : t :=
  {| id := id c; name := name c; cost := cost c; type := type c; attack := v;
     health := health c; maxHealth := maxHealth c; ability := ability c;
     emoji := emoji c; rarity := rarity c; tapped := tapped c; frozen := frozen c;
     hasAttackedThisTurn := hasAttackedThisTurn c;
     doubleStrikeUsed := doubleStrikeUsed c; windfuryUsed := windfuryUsed c;
     canOnlyAttackCreatures := canOnlyAttackCreatures c; stealth := stealth c;
     divineShield := divineShield c; spellShield := spellShield c;
     vigilance := vigilance c; immune := immune c; tempImmune := tempImmune c;
     taunt := taunt c; instantKill := instantKill c; enraged := enraged c |}.
Definition set_health (v : Z) (c : t) : t :=
  {| id := id c; name := name c; cost := cost c; type := type c; attack := attack c;
     health := v; maxHealth := maxHealth c; ability := ability c; emoji := emoji c;
     rarity := rarity c; tapped := tapped c; frozen := frozen c;
     hasAttackedThisTurn := hasAttackedThisTurn c;
     doubleStrikeUsed := doubleStrikeUsed c; windfuryUsed := windfuryUsed c;
     canOnlyAttackCreatures := canOnlyAttackCreatures c; stealth := stealth c;
     divineShield := divineShield c; spellShield := spellShield c;
     vigilance := vigilance c; immune := immune c; tempImmune := tempImmune c;
     taunt := taunt c; instantKill := instantKill c; enraged := enraged c |}.
Definition set_maxHealth (v : Z) (c : t) : t :=
  {| id := id c; name := name c; cost := cost c; type := type c; attack := attack c;
     health := health c; maxHealth := v; ability := ability c; emoji := emoji c;
     rarity := rarity c; tapped := tapped c; frozen := frozen c;
     hasAttackedThisTurn := hasAttackedThisTurn c;
     doubleStrikeUsed := doubleStrikeUsed c; windfuryUsed := windfuryUsed c;
     canOnlyAttackCreatures := canOnlyAttackCreatures c; stealth := stealth c;
     divineShield := divineShield c; spellShield := spellShield c;
     vigilance := vigilance c; immune := immune c; tempImmune := tempImmune c;
     taunt := taunt c; instantKill := instantKill c; enraged := enraged c |}.
Definition set_tapped (v : bool) (c : t) : t :=
  {| id := id c; name := name c; cost := cost c; type := type c; attack := attack c;
     health := health c; maxHealth := maxHealth c; ability := ability c;
     emoji := emoji c; rarity := rarity c; tapped := v; frozen := frozen c;
     hasAttackedThisTurn := hasAttackedThisTurn c;
     doubleStrikeUsed := doubleStrikeUsed c; windfuryUsed := windfuryUsed c;
     canOnlyAttackCreatures := canOnlyAttackCreatures c; stealth := stealth c;
     divineShield := divineShield c; spellShield := spellShield c;
     vigilance := vigilance c; immune := immune c; tempImmune := tempImmune c;
     taunt := taunt c; instantKill := instantKill c; enraged := enraged c |}.
Definition set_frozen (v : bool) (c : t) : t :=
  {| id := id c; name := name c; cost := cost c; type := type c; attack := attack c;
     health := health c; maxHealth := maxHealth c; ability := ability c;
     emoji := emoji c; rarity := rarity c; tapped := tapped c; frozen := v;
     hasAttackedThisTurn := hasAttackedThisTurn c;
     doubleStrikeUsed := doubleStrikeUsed c; windfuryUsed := windfuryUsed c;
     canOnlyAttackCreatures := canOnlyAttackCreatures c; stealth := stealth c;
     divineShield := divineShield c; spellShield := spellShield c;
     vigilance := vigilance c; immune := immune c; tempImmune := tempImmune c;
     taunt := taunt c; instantKill := instantKill c; enraged := enraged c |}.
Definition set_hasAttackedThisTurn (v : bool) (c : t) : t :=
  {| id := id c; name := name c; cost := cost c; type := type c; attack := attack c;
     health := health c; maxHealth := maxHealth c; ability := ability c;
     emoji := emoji c; rarity := rarity c; tapped := tapped c; frozen := frozen c;
     hasAttackedThisTurn := v; doubleStrikeUsed := doubleStrikeUsed c;
     windfuryUsed := windfuryUsed c; canOnlyAttackCreatures := canOnlyAttackCreatures c;
     stealth := stealth c; divineShield := divineShield c; spellShield := spellShield c;
     vigilance := vigilance c; immune := immune c; tempImmune := tempImmune c;
     taunt := taunt c; instantKill := instantKill c; enraged := enraged c |}.
Definition set_doubleStrikeUsed (v : bool) (c : t) : t :=
  {| id := id c; name := name c; cost := cost c; type := type c; attack := attack c;
     health := health c; maxHealth := maxHealth c; ability := ability c;
     emoji := emoji c; rarity := rarity c; tapped := tapped c; frozen := frozen c;
     hasAttackedThisTurn := hasAttackedThisTurn c; doubleStrikeUsed := v;
     windfuryUsed := windfuryUsed c; canOnlyAttackCreatures := canOnlyAttackCreatures c;
     stealth := stealth c; divineShield := divineShield c; spellShield := spellShield c;
     vigilance := vigilance c; immune := immune c; tempImmune := tempImmune c;
     taunt := taunt c; instantKill := instantKill c; enraged := enraged c |}.
Definition set_windfuryUsed (v : bool) (c : t) : t :=
  {| id := id c; name := name c; cost := cost c; type := type c; attack := attack c;
     health := health c; maxHealth := maxHealth c; ability := ability c;
     emoji := emoji c; rarity := rarity c; tapped := tapped c; frozen := frozen c;
     hasAttackedThisTurn := hasAttackedThisTurn c;
     doubleStrikeUsed := doubleStrikeUsed c; windfuryUsed := v;
     canOnlyAttackCreatures := canOnlyAttackCreatures c; stealth := stealth c;
     divineShield := divineShield c; spellShield := spellShield c;
     vigilance := vigilance c; immune := immune c; tempImmune := tempImmune c;
     taunt := taunt c; instantKill := instantKill c; enraged := enraged c |}.
Definition set_canOnlyAttackCreatures (v : bool) (c : t) : t :=
  {| id := id c; name := name c; cost := cost c; type := type c; attack := attack c;
     health := health c; maxHealth := maxHealth c; ability := ability c;
     emoji := emoji c; rarity := rarity c; tapped := tapped c; frozen := frozen c;
     hasAttackedThisTurn := hasAttackedThisTurn c;
     doubleStrikeUsed := doubleStrikeUsed c; windfuryUsed := windfuryUsed c;
     canOnlyAttackCreatures := v; stealth := stealth c; divineShield := divineShield c;
     spellShield := spellShield c; vigilance := vigilance c; immune := immune c;
     tempImmune := tempImmune c; taunt := taunt c; instantKill := instantKill c;
     enraged := enraged c |}.
Definition set_stealth (v : bool) (c : t) : t :=
  {| id := id c; name := name c; cost := cost c; type := type c; attack := attack c;
     health := health c; maxHealth := maxHealth c; ability := ability c;
     emoji := emoji c; rarity := rarity c; tapped := tapped c; frozen := frozen c;
     hasAttackedThisTurn := hasAttackedThisTurn c;
     doubleStrikeUsed := doubleStrikeUsed c; windfuryUsed := windfuryUsed c;
     canOnlyAttackCreatures := canOnlyAttackCreatures c; stealth := v;
     divineShield := divineShield c; spellShield := spellShield c;
     vigilance := vigilance c; immune := immune c; tempImmune := tempImmune c;
     taunt := taunt c; instantKill := instantKill c; enraged := enraged c |}.
Definition set_divineShield (v : bool) (c : t) : t :=
  {| id := id c; name := name c; cost := cost c; type := type c; attack := attack c;
     health := health c; maxHealth := maxHealth c; ability := ability c;
     emoji := emoji c; rarity := rarity c; tapped := tapped c; frozen := frozen c;
     hasAttackedThisTurn := hasAttackedThisTurn c;
     doubleStrikeUsed := doubleStrikeUsed c; windfuryUsed := windfuryUsed c;
     canOnlyAttackCreatures := canOnlyAttackCreatures c; stealth := stealth c;
     divineShield := v; spellShield := spellShield c; vigilance := vigilance c;
     immune := immune c; tempImmune := tempImmune c; taunt := taunt c;
     instantKill := instantKill c; enraged := enraged c |}.
Definition set_spellShield (v : bool) (c : t) : t :=
  {| id := id c; name := name c; cost := cost c; type := type c; attack := attack c;
     health := health c; maxHealth := maxHealth c; ability := ability c;
     emoji := emoji c; rarity := rarity c; tapped := tapped c; frozen := frozen c;
     hasAttackedThisTurn := hasAttackedThisTurn c;
     doubleStrikeUsed := doubleStrikeUsed c; windfuryUsed := windfuryUsed c;
     canOnlyAttackCreatures := canOnlyAttackCreatures c; stealth := stealth c;
     divineShield := divineShield c; spellShield := v; vigilance := vigilance c;
     immune := immune c; tempImmune := tempImmune c; taunt := taunt c;
     instantKill := instantKill c; enraged := enraged c |}.
Definition set_vigilance (v : bool) (c : t) : t :=
  {| id := id c; name := name c; cost := cost c; type := type c; attack := attack c;
     health := health c; maxHealth := maxHealth c; ability := ability c;
     emoji := emoji c; rarity := rarity c; tapped := tapped c; frozen := frozen c;
     hasAttackedThisTurn := hasAttackedThisTurn c;
     doubleStrikeUsed := doubleStrikeUsed c; windfuryUsed := windfuryUsed c;
     canOnlyAttackCreatures := canOnlyAttackCreatures c; stealth := stealth c;
     divineShield := divineShield c; spellShield := spellShield c; vigilance := v;
     immune := immune c; tempImmune := tempImmune c; taunt := taunt c;
     instantKill := instantKill c; enraged := enraged c |}.
Definition set_immune (v : bool) (c : t) : t :=
  {| id := id c; name := name c; cost := cost c; type := type c; attack := attack c;
     health := health c; maxHealth := maxHealth c; ability := ability c;
     emoji := emoji c; rarity := rarity c; tapped := tapped c; frozen := frozen c;
     hasAttackedThisTurn := hasAttackedThisTurn c;
     doubleStrikeUsed := doubleStrikeUsed c; windfuryUsed := windfuryUsed c;
     canOnlyAttackCreatures := canOnlyAttackCreatures c; stealth := stealth c;
     divineShield := divineShield c; spellShield := spellShield c;
     vigilance := vigilance c; immune := v; tempImmune := tempImmune c; taunt := taunt c;
     instantKill := instantKill c; enraged := enraged c |}.
Definition set_tempImmune (v : bool) (c : t) : t :=
  {| id := id c; name := name c; cost := cost c; type := type c; attack := attack c;
     health := health c; maxHealth := maxHealth c; ability := ability c;
     emoji := emoji c; rarity := rarity c; tapped := tapped c; frozen := frozen c;
     hasAttackedThisTurn := hasAttackedThisTurn c;
     doubleStrikeUsed := doubleStrikeUsed c; windfuryUsed := windfuryUsed c;
     canOnlyAttackCreatures := canOnlyAttackCreatures c; stealth := stealth c;
     divineShield := divineShield c; spellShield := spellShield c;
     vigilance := vigilance c; immune := immune c; tempImmune := v; taunt := taunt c;
     instantKill := instantKill c; enraged := enraged c |}.
Definition set_taunt (v : bool) (c : t) : t :=
  {| id := id c; name := name c; cost := cost c; type := type c; attack := attack c;
     health := health c; maxHealth := maxHealth c; ability := ability c;
     emoji := emoji c; rarity := rarity c; tapped := tapped c; frozen := frozen c;
     hasAttackedThisTurn := hasAttackedThisTurn c;
     doubleStrikeUsed := doubleStrikeUsed c; windfuryUsed := windfuryUsed c;
     canOnlyAttackCreatures := canOnlyAttackCreatures c; stealth := stealth c;
     divineShield := divineShield c; spellShield := spellShield c;
     vigilance := vigilance c; immune := immune c; tempImmune := tempImmune c;
     taunt := v; instantKill := instantKill c; enraged := enraged c |}.
Definition set_instantKill (v : bool) (c : t) : t :=
  {| id := id c; name := name c; cost := cost c; type := type c; attack := attack c;
     health := health c; maxHealth := maxHealth c; ability := ability c;
     emoji := emoji c; rarity := rarity c; tapped := tapped c; frozen := frozen c;
     hasAttackedThisTurn := hasAttackedThisTurn c;
     doubleStrikeUsed := doubleStrikeUsed c; windfuryUsed := windfuryUsed c;
     canOnlyAttackCreatures := canOnlyAttackCreatures c; stealth := stealth c;
     divineShield := divineShield c; spellShield := spellShield c;
     vigilance := vigilance c; immune := immune c; tempImmune := tempImmune c;
     taunt := taunt c; instantKill := v; enraged := enraged c |}.
Definition set_enraged (v : bool) (c : t) : t :=
  {| id := id c; name := name c; cost := cost c; type := type c; attack := attack c;
     health := health c; maxHealth := maxHealth c; ability := ability c;
     emoji := emoji c; rarity := rarity c; tapped := tapped c; frozen := frozen c;
     hasAttackedThisTurn := hasAttackedThisTurn c;
     doubleStrikeUsed := doubleStrikeUsed c; windfuryUsed := windfuryUsed c;
     canOnlyAttackCreatures := canOnlyAttackCreatures c; stealth := stealth c;
     divineShield := divineShield c; spellShield := spellShield c;
     vigilance := vigilance c; immune := immune c; tempImmune := tempImmune c;
     taunt := taunt c; instantKill := instantKill c; enraged := v |}.

(** Catalog template data (the objects of [ALL_CARDS]). *)
Record template := mkTemplate {
  t_name : string; t_cost : Z; t_type : string; t_attack : Z; t_health : Z;
  t_ability : string; t_emoji : string; t_rarity : string
}.

(** [new Card(template)]: the instance id [Math.random().toString(36)...]
    is supplied by the caller as [fresh]. *)
Definition create (fresh : string) (tp : template) : t :=
  let c := {| id := fresh; name := t_name tp; cost := t_cost tp; type := t_type tp;
              attack := t_attack tp; health := t_health tp; maxHealth := t_health tp;
              ability := t_ability tp; emoji := t_emoji tp; rarity := t_rarity tp;
              tapped := false; frozen := false; hasAttackedThisTurn := false;
              doubleStrikeUsed := false; windfuryUsed := false;
              canOnlyAttackCreatures := false; stealth := false; divineShield := false;
              spellShield := false; vigilance := false; immune := false;
              tempImmune := false; taunt := false; instantKill := false;
              enraged := false |} in
  let c := if streq (ability c) "Taunt" then set_taunt true c else c in
  let c := if streq (ability c) "Vigilance" then set_vigilance true c else c in
  let c := if streq (ability c) "Stealth" then set_stealth true c else c in
  let c := if streq (ability c) "Divine Shield" then set_divineShield true c else c in
  if streq (ability c) "Spell Shield" then set_spellShield true c else c.

(** [resetForTurn()] *)
Definition resetForTurn (c : t) : t :=
  let c := if frozen c then set_frozen false c else set_tapped false c in
  let c := set_hasAttackedThisTurn false c in
  let c := set_doubleStrikeUsed false c in
  let c := set_windfuryUsed false c in
  let c := set_canOnlyAttackCreatures false c in
  let c := set_tempImmune false c in
  if streq (ability c) "Regenerate" then set_health (maxHealth c) c else c.

(** [takeDamage(amount)]: returns the damage actually dealt and the
    updated card. *)
Definition takeDamage (amount : Z) (c : t) : Z * t :=
  if amount <=? 0 then (0, c)
  else if immune c || tempImmune c then (0, c)
  else if divineShield c then (0, set_divineShield false c)
  else
    let actualDamage := Z.min amount (health c) in
    let c := set_health (health c - actualDamage) c in
    if streq (ability c) "Enrage" && (0 <? actualDamage) && (0 <? health c)
       && negb (enraged c)
    then (actualDamage, set_enraged true (set_attack (attack c + 2) c))
    else (actualDamage, c).

(** [canAttack()] *)
Definition canAttack (c : t) : bool :=
  negb (tapped c) && negb (frozen c) && negb (hasAttackedThisTurn c).

(** [markAttacked()] *)
Definition markAttacked (c : t) : t :=
  let c := set_hasAttackedThisTurn true c in
  let c := if vigilance c then c else set_tapped true c in
  if streq (ability c) "Windfury" then
    if negb (windfuryUsed c) then
      set_windfuryUsed true (set_hasAttackedThisTurn false (set_tapped false c))
    else
      let c := set_hasAttackedThisTurn true c in
      if vigilance c then c else set_tapped true c
  else if streq (ability c) "Double Strike" && negb (doubleStrikeUsed c) then
    set_tapped false (set_hasAttackedThisTurn false (set_doubleStrikeUsed true c))
  else if streq (ability c) "Double Strike" && doubleStrikeUsed c then
    let c := set_hasAttackedThisTurn true c in
    if vigilance c then c else set_tapped true c
  else c.

(** [clone()]: a fresh instance built from the catalog fields, with the
    current [maxHealth] as its health. *)
Definition clone (fresh : string) (c : t) : t :=
  create fresh {| t_name := name c; t_cost := cost c; t_type := type c; t_attack := attack c;
                  t_health := maxHealth c; t_ability := ability c; t_emoji := emoji c;
                  t_rarity := rarity c |}.

(** [getDisplayCost(spellsCount)] *)
Definition getDisplayCost (spellsCount : Z) (c : t) : Z :=
  if streq (ability c) "Costs less per spell" then Z.max 0 (cost c - spellsCount) else cost c.

End Card.

(** ** Player sides and the match log *)

Module Player.

(** One side's zones and resources ([this.players[i]]). *)
Record t := mk {
  health : Z;
  maxHealth : Z;
  mana : Z;
  maxMana : Z;
  hand : list Card.t;
  deck : list Card.t;
  field : list Card.t;
  graveyard : list Card.t;
  spellsCount : Z;
  spellPower : Z
}.

Definition set_health (v : Z) (p : t) : t :=
  {| health := v; maxHealth := maxHealth p; mana := mana p; maxMana := maxMana p;
     hand := hand p; deck := deck p; field := field p; graveyard := graveyard p;
     spellsCount := spellsCount p; spellPower := spellPower p |}.
Definition set_maxHealth (v : Z) (p : t) : t :=
  {| health := health p; maxHealth := v; mana := mana p; maxMana := maxMana p;
     hand := hand p; deck := deck p; field := field p; graveyard := graveyard p;
     spellsCount := spellsCount p; spellPower := spellPower p |}.
Definition set_mana (v : Z) (p : t) : t :=
  {| health := health p; maxHealth := maxHealth p; mana := v; maxMana := maxMana p;
     hand := hand p; deck := deck p; field := field p; graveyard := graveyard p;
     spellsCount := spellsCount p; spellPower := spellPower p |}.
Definition set_maxMana (v : Z) (p : t) : t :=
  {| health := health p; maxHealth := maxHealth p; mana := mana p; maxMana := v;
     hand := hand p; deck := deck p; field := field p; graveyard := graveyard p;
     spellsCount := spellsCount p; spellPower := spellPower p |}.
Definition set_hand (v : list Card.t) (p : t) : t :=
  {| health := health p; maxHealth := maxHealth p; mana := mana p; maxMana := maxMana p;
     hand := v; deck := deck p; field := field p; graveyard := graveyard p;
     spellsCount := spellsCount p; spellPower := spellPower p |}.
Definition set_deck (v : list Card.t) (p : t) : t :=
  {| health := health p; maxHealth := maxHealth p; mana := mana p; maxMana := maxMana p;
     hand := hand p; deck := v; field := field p; graveyard := graveyard p;
     spellsCount := spellsCount p; spellPower := spellPower p |}.
Definition set_field (v : list Card.t) (p : t) : t :=
  {| health := health p; maxHealth := maxHealth p; mana := mana p; maxMana := maxMana p;
     hand := hand p; deck := deck p; field := v; graveyard := graveyard p;
     spellsCount := spellsCount p; spellPower := spellPower p |}.
Definition set_graveyard (v : list Card.t) (p : t) : t :=
  {| health := health p; maxHealth := maxHealth p; mana := mana p; maxMana := maxMana p;
     hand := hand p; deck := deck p; field := field p; graveyard := v;
     spellsCount := spellsCount p; spellPower := spellPower p |}.
Definition set_spellsCount (v : Z) (p : t) : t :=
  {| health := health p; maxHealth := maxHealth p; mana := mana p; maxMana := maxMana p;
     hand := hand p; deck := deck p; field := field p; graveyard := graveyard p;
     spellsCount := v; spellPower := spellPower p |}.
Definition set_spellPower (v : Z) (p : t) : t :=
  {| health := health p; maxHealth := maxHealth p; mana := mana p; maxMana := maxMana p;
     hand := hand p; deck := deck p; field := field p; graveyard := graveyard p;
     spellsCount := spellsCount p; spellPower := v |}.

End Player.

(** A player index of the two-element [players] array. *)
Inductive side := P0 | P1.

(** [1 - playerIndex] *)
Definition other (s : side) : side := match s with P0 => P1 | P1 => P0 end.

(** The numeric value of the index. *)
Definition index (s : side) : Z := match s with P0 => 0 | P1 => 1 end.

Definition side_eqb (a b : side) : bool :=
  match a, b with P0, P0 | P1, P1 => true | _, _ => false end.

(** An entry of [gameLog]. *)
Record logEntry := mkLogEntry {
  message : string; timestamp : Z; turn : Z; activePlayer : Z
}.

(** The [target] argument of [handleSpell]: a JavaScript value.  [TNum n]
    is the integer [n]; [TFrac n] is a number strictly between [n] and
    [n + 1] (such as [n + 0.5]), which compares with integers as [n] does
    for [>= 0] and [< length]; [TOther] is any other value (a string other
    than ['opponent'], [NaN], an object, ...). *)
Inductive target := TNull | TUndefined | TOpponent | TNum (n : Z) | TFrac (n : Z) | TOther.

Fixpoint set_nth {A} (n : nat) (x : A) (l : list A) : list A :=
  match l, n with
  | [], _ => []
  | _ :: l', O => x :: l'
  | y :: l', S n' => y :: set_nth n' x l'
  end.

(** [arr.splice(n, 1)] *)
Fixpoint remove_nth {A} (n : nat) (l : list A) : list A :=
  match l, n with
  | [], _ => []
  | _ :: l', O => l'
  | y :: l', S n' => y :: remove_nth n' l'
  end.

(** [arr.slice(-n)] *)
Definition lastn {A} (n : nat) (l : list A) : list A := skipn (length l - n) l.

(** [0 <= i && i < l.length] *)
Definition in_range {A} (i : Z) (l : list A) : bool :=
  (0 <=? i) && (i <? Z.of_nat (length l)).

(** ** [ServerGame.js] *)

Module ServerGame.

(** The match state.  [now] is the value [Date.now()] returns while one
    message is processed, and [nextId] is the supply from which the fresh
    instance ids of cards created during play ([Math.random()] ids of
    skeleton tokens and resurrected cards) are drawn. *)
Record t := mk {
  roomId : string;
  players : Player.t * Player.t;
  currentTurn : side;
  turnNumber : Z;
  totalTurns : Z;
  gameOver : bool;
  winner : option side;
  gameLog : list logEntry;
  now : Z;
  nextId : nat
}.

Definition set_roomId (v : string) (g : t) : t :=
  {| roomId := v; players := players g; currentTurn := currentTurn g;
     turnNumber := turnNumber g; totalTurns := totalTurns g; gameOver := gameOver g;
     winner := winner g; gameLog := gameLog g; now := now g; nextId := nextId g |}.
Definition set_players (v : Player.t * Player.t) (g : t) : t :=
  {| roomId := roomId g; players := v; currentTurn := currentTurn g;
     turnNumber := turnNumber g; totalTurns := totalTurns g; gameOver := gameOver g;
     winner := winner g; gameLog := gameLog g; now := now g; nextId := nextId g |}.
Definition set_currentTurn (v : side) (g : t) : t :=
  {| roomId := roomId g; players := players g; currentTurn := v;
     turnNumber := turnNumber g; totalTurns := totalTurns g; gameOver := gameOver g;
     winner := winner g; gameLog := gameLog g; now := now g; nextId := nextId g |}.
Definition set_turnNumber (v : Z) (g : t) : t :=
  {| roomId := roomId g; players := players g; currentTurn := currentTurn g;
     turnNumber := v; totalTurns := totalTurns g; gameOver := gameOver g;
     winner := winner g; gameLog := gameLog g; now := now g; nextId := nextId g |}.
Definition set_totalTurns (v : Z) (g : t) : t :=
  {| roomId := roomId g; players := players g; currentTurn := currentTurn g;
     turnNumber := turnNumber g; totalTurns := v; gameOver := gameOver g;
     winner := winner g; gameLog := gameLog g; now := now g; nextId := nextId g |}.
Definition set_gameOver (v : bool) (g : t) : t :=
  {| roomId := roomId g; players := players g; currentTurn := currentTurn g;
     turnNumber := turnNumber g; totalTurns := totalTurns g; gameOver := v;
     winner := winner g; gameLog := gameLog g; now := now g; nextId := nextId g |}.
Definition set_winner (v : option side) (g : t) : t :=
  {| roomId := roomId g; players := players g; currentTurn := currentTurn g;
     turnNumber := turnNumber g; totalTurns := totalTurns g; gameOver := gameOver g;
     winner := v; gameLog := gameLog g; now := now g; nextId := nextId g |}.
Definition set_gameLog (v : list logEntry) (g : t) : t :=
  {| roomId := roomId g; players := players g; currentTurn := currentTurn g;
     turnNumber := turnNumber g; totalTurns := totalTurns g; gameOver := gameOver g;
     winner := winner g; gameLog := v; now := now g; nextId := nextId g |}.
Definition set_now (v : Z) (g : t) : t :=
  {| roomId := roomId g; players := players g; currentTurn := currentTurn g;
     turnNumber := turnNumber g; totalTurns := totalTurns g; gameOver := gameOver g;
     winner := winner g; gameLog := gameLog g; now := v; nextId := nextId g |}.
Definition set_nextId (v : nat) (g : t) : t :=
  {| roomId := roomId g; players := players g; currentTurn := currentTurn g;
     turnNumber := turnNumber g; totalTurns := totalTurns g; gameOver := gameOver g;
     winner := winner g; gameLog := gameLog g; now := now g; nextId := v |}.

(** [this.players[s]] *)
Definition player (s : side) (g : t) : Player.t :=
  match s with P0 => fst (players g) | P1 => snd (players g) end.

(** In-place mutation of [this.players[s]]. *)
Definition update_player (s : side) (f : Player.t -> Player.t) (g : t) : t :=
  set_players
    (match s with
     | P0 => (f (fst (players g)), snd (players g))
     | P1 => (fst (players g), f (snd (players g)))
     end) g.

Definition freshId (g : t) : string * t :=
  ("card" ++ Z_to_string (Z.of_nat (nextId g)), set_nextId (S (nextId g)) g).

Definition initialPlayer (m : Z) : Player.t :=
  {| Player.health := 30; Player.maxHealth := 30; Player.mana := m; Player.maxMana := m;
     Player.hand := []; Player.deck := []; Player.field := []; Player.graveyard := [];
     Player.spellsCount := 0; Player.spellPower := 0 |}.

(** [new ServerGame(roomId)] *)
Definition create (rid : string) (clock : Z) : t :=
  {| roomId := rid; players := (initialPlayer 1, initialPlayer 0); currentTurn := P0;
     turnNumber := 1; totalTurns := 1; gameOver := false; winner := None;
     gameLog := []; now := clock; nextId := O |}.

(** [addLog(message)] *)
Definition addLog (msg : string) (g : t) : t :=
  let e := {| message := msg; timestamp := now g; turn := turnNumber g;
              activePlayer := index (currentTurn g) + 1 |} in
  let l := app (gameLog g) [e] in
  set_gameLog (if (20 <? length l)%nat then lastn 20 l else l) g.

Definition playerLabel (s : side) : string := "Player " ++ Z_to_string (index s + 1).

(** [drawCard(playerIndex)] *)
Definition drawCard (s : side) (g : t) : t :=
  let p := player s g in
  match Player.deck p with
  | c :: rest =>
      if (length (Player.hand p) <? 10)%nat then
        addLog (playerLabel s ++ " drew " ++ Card.name c)
          (update_player s (fun p => Player.set_deck rest (Player.set_hand (app (Player.hand p) [c]) p)) g)
      else g
  | [] => g
  end.

Fixpoint drawN (n : nat) (s : side) (g : t) : t :=
  match n with O => g | S n' => drawN n' s (drawCard s g) end.

(** [[deck[i], deck[j]] = [deck[j], deck[i]]] *)
Definition swap {A} (i j : nat) (l : list A) : list A :=
  match nth_error l i, nth_error l j with
  | Some a, Some b => set_nth j a (set_nth i b l)
  | _, _ => l
  end.

(** The loop of [shuffleDeck(deck)] for [i = n, ..., 1].  The random
    source is [rnd]: [Math.floor(Math.random() * (i + 1))] is some index in
    [0 .. i], taken here as [rnd i mod (i + 1)]. *)
Fixpoint shuffleLoop {A} (rnd : nat -> nat) (n : nat) (l : list A) : list A :=
  match n with
  | O => l
  | S n' => shuffleLoop rnd n' (swap n (rnd n mod S n)%nat l)
  end.

(** [shuffleDeck(deck)] *)
Definition shuffleDeck {A} (rnd : nat -> nat) (l : list A) : list A :=
  shuffleLoop rnd (length l - 1) l.

(** [deckCards.map(cardData => new Card(cardData))], with the card data
    given as catalog entries; the fresh ids are taken in order. *)
Fixpoint createCards (tps : list Card.template) (g : t) : list Card.t * t :=
  match tps with
  | [] => ([], g)
  | tp :: rest =>
      let (fid, g) := freshId g in
      let (cs, g) := createCards rest g in
      (Card.create fid tp :: cs, g)
  end.

(** [initPlayerDeck(playerIndex, deckCards)] *)
Definition initPlayerDeck (s : side) (deckCards : list Card.template) (rnd : nat -> nat) (g : t)
  : bool * t :=
  if (0 <? length (Player.deck (player s g)))%nat then (false, g)
  else
    let (cardInstances, g) := createCards deckCards g in
    let cardInstances := shuffleDeck rnd cardInstances in
    let g := update_player s (Player.set_deck cardInstances) g in
    let g := drawN 5 s g in
    ((0 <? length (Player.deck (player P0 g)))%nat && (0 <? length (Player.deck (player P1 g)))%nat, g).

(** [checkGameOver()]: player 0 is examined first. *)
Definition checkGameOver (g : t) : bool * t :=
  if (Player.health (player P0 g) <=? 0) && negb (gameOver g) then
    (true, addLog (playerLabel P1 ++ " wins!") (set_winner (Some P1) (set_gameOver true g)))
  else if (Player.health (player P1 g) <=? 0) && negb (gameOver g) then
    (true, addLog (playerLabel P0 ++ " wins!") (set_winner (Some P0) (set_gameOver true g)))
  else (false, g).

Definition spellPowerOf (p : Player.t) : Z :=
  Z.of_nat (length (filter (fun c => streq (Card.ability c) "Spell Power +1") (Player.field p))).

(** [updateSpellPower()] *)
Definition updateSpellPower (g : t) : t :=
  update_player P1 (fun p => Player.set_spellPower (spellPowerOf p) p)
    (update_player P0 (fun p => Player.set_spellPower (spellPowerOf p) p) g).

(** The catalog fields of [creature], as passed to [new Card({...})] by
    [clone()] and by Resurrect. *)
Definition templateOf (c : Card.t) : Card.template :=
  {| Card.t_name := Card.name c; Card.t_cost := Card.cost c; Card.t_type := Card.type c;
     Card.t_attack := Card.attack c; Card.t_health := Card.maxHealth c;
     Card.t_ability := Card.ability c; Card.t_emoji := Card.emoji c;
     Card.t_rarity := Card.rarity c |}.

Definition push_graveyard (s : side) (c : Card.t) (g : t) : t :=
  update_player s (fun p => Player.set_graveyard (app (Player.graveyard p) [c]) p) g.

(** The callback of [player.field.filter(...)] in [checkCreatureDeaths],
    run over the field of side [s]: the creatures kept, and the state
    after the side effects of the removed ones. *)
Fixpoint sweep (s : side) (cs : list Card.t) (g : t) : list Card.t * t :=
  match cs with
  | [] => ([], g)
  | c :: rest =>
      if Card.health c <=? 0 then
        let g := addLog (Card.name c ++ " was destroyed!") g in
        let g := if streq (Card.ability c) "Deathrattle: Draw"
                 then addLog "Deathrattle: Drew a card!" (drawCard s g) else g in
        let g := if streq (Card.ability c) "Resurrect" then
                   let (fid, g) := freshId g in
                   let newCard := Card.create fid (templateOf c) in
                   if (length (Player.hand (player s g)) <? 10)%nat then
                     addLog (Card.name c ++ " returns to hand!")
                       (update_player s (fun p => Player.set_hand (app (Player.hand p) [newCard]) p) g)
                   else g
                 else g in
        sweep s rest (push_graveyard s c g)
      else
        let (kept, g) := sweep s rest g in (c :: kept, g)
  end.

Definition sweepSide (s : side) (g : t) : t :=
  let (kept, g) := sweep s (Player.field (player s g)) g in
  update_player s (Player.set_field kept) g.

(** [checkCreatureDeaths()] *)
Definition checkCreatureDeaths (g : t) : t :=
  updateSpellPower (sweepSide P1 (sweepSide P0 g)).

(** [opponent.field.forEach(creature => creature.takeDamage(2) ...)] *)
Fixpoint aoe (cs : list Card.t) (g : t) : list Card.t * t :=
  match cs with
  | [] => ([], g)
  | c :: rest =>
      let (damage, c) := Card.takeDamage 2 c in
      let g := if 0 <? damage
               then addLog (Card.name c ++ " takes " ++ Z_to_string damage ++ " AOE damage!") g
               else g in
      let (rest, g) := aoe rest g in (c :: rest, g)
  end.

Definition skeletonTemplate : Card.template :=
  {| Card.t_name := "Skeleton"; Card.t_cost := 0; Card.t_type := "creature";
     Card.t_attack := 1; Card.t_health := 1; Card.t_ability := "";
     Card.t_emoji := "skull"; Card.t_rarity := "common" |}.

(** [for (let i = 0; i < 2 && player.field.length < 7; i++) ...] *)
Fixpoint summon (n : nat) (s : side) (g : t) : t :=
  match n with
  | O => g
  | S n' =>
      if (length (Player.field (player s g)) <? 7)%nat then
        let (fid, g) := freshId g in
        let skeleton := Card.set_tapped true (Card.create fid skeletonTemplate) in
        summon n' s (update_player s (fun p => Player.set_field (app (Player.field p) [skeleton]) p) g)
      else g
  end.

(** [handleEnterPlayAbilities(playerIndex, card)] *)
Definition handleEnterPlayAbilities (s : side) (card : Card.t) (g : t) : t :=
  let ab := Card.ability card in
  if streq ab "Draw a card" || streq ab "Draw 2 cards" || streq ab "Draw 3 cards" then
    let drawCount := match match_digits ab with Some d => parseInt d | None => 1 end in
    drawN (Z.to_nat drawCount) s g
  else if streq ab "Battlecry: Damage" then
    let g := update_player (other s) (fun p => Player.set_health (Player.health p - 2) p) g in
    let g := addLog (Card.name card ++ "'s Battlecry deals 2 damage!") g in
    snd (checkGameOver g)
  else if streq ab "AOE damage" then
    let (fld, g) := aoe (Player.field (player (other s) g)) g in
    checkCreatureDeaths (update_player (other s) (Player.set_field fld) g)
  else if streq ab "Summon skeletons" then
    addLog "Summoned 2 Skeleton tokens!" (summon 2 s g)
  else if streq ab "Spell Power +1" then
    updateSpellPower g
  else g.

(** [playCreature(playerIndex, card)] *)
Definition playCreature (s : side) (card : Card.t) (g : t) : t :=
  let ab := Card.ability card in
  let c := Card.set_tapped true card in
  let c := Card.set_frozen false c in
  let c := Card.set_hasAttackedThisTurn false c in
  let c := Card.set_doubleStrikeUsed false c in
  let c := if streq ab "Rush" then Card.set_canOnlyAttackCreatures true (Card.set_tapped false c)
           else if streq ab "Quick" || streq ab "Charge" || streq ab "Haste"
           then Card.set_tapped false c
           else c in
  let c := if streq ab "Vigilance" then Card.set_vigilance true c else c in
  let c := if streq ab "Taunt" then Card.set_taunt true c else c in
  let c := if streq ab "Divine Shield" then Card.set_divineShield true c else c in
  let c := if streq ab "Stealth" then Card.set_stealth true c else c in
  let c := if streq ab "Spell Shield" then Card.set_spellShield true c else c in
  let g := update_player s (fun p => Player.set_field (app (Player.field p) [c]) p) g in
  let g := handleEnterPlayAbilities s c g in
  updateSpellPower g.

(** [target === 'opponent' || target === undefined || target === -1] *)
Definition targetsOpponent (tg : target) : bool :=
  match tg with
  | TOpponent | TUndefined => true
  | TNum n => n =? -1
  | _ => false
  end.

(** A parameter with default [null]: [undefined] becomes [null]. *)
Definition nullDefault (tg : target) : target :=
  match tg with TUndefined => TNull | _ => tg end.

Definition buffCreature (buff : Z) (c : Card.t) : Card.t :=
  Card.set_maxHealth (Card.maxHealth c + buff)
    (Card.set_health (Card.health c + buff) (Card.set_attack (Card.attack c + buff) c)).

(** [handleSpell(playerIndex, card, target)]; [None] is the [TypeError]
    thrown by [ability.match(/\d+/)[0]] when the ability holds no digit,
    or by [opponent.field[target].takeDamage] when a fractional [target]
    passes the range test and [opponent.field[target]] is [undefined].
    The default [target = null] turns an [undefined] argument into [null]. *)
Definition handleSpell (s : side) (card : Card.t) (tg : target) (g : t) : option t :=
  let tg := nullDefault tg in
  let ab := Card.ability card in
  let p := player s g in
  if includes ab "Deal" then
    match match_digits ab with
    | None => None
    | Some d =>
      let damage := parseInt d + Player.spellPower p in
      if targetsOpponent tg then
        let g := update_player (other s) (fun o => Player.set_health (Player.health o - damage) o) g in
        let g := addLog (Card.name card ++ " deals " ++ Z_to_string damage ++ " damage to opponent!") g in
        Some (snd (checkGameOver g))
      else
        match tg with
        | TNum n =>
          if in_range n (Player.field (player (other s) g)) then
            match nth_error (Player.field (player (other s) g)) (Z.to_nat n) with
            | Some tc =>
              let (actualDamage, tc) := Card.takeDamage damage tc in
              let g := addLog (Card.name card ++ " deals " ++ Z_to_string actualDamage
                               ++ " damage to " ++ Card.name tc ++ "!") g in
              let (tc, g) := if includes ab "Freeze"
                             then (Card.set_frozen true tc, addLog (Card.name tc ++ " is frozen!") g)
                             else (tc, g) in
              let g := update_player (other s)
                         (fun o => Player.set_field (set_nth (Z.to_nat n) tc (Player.field o)) o) g in
              Some (checkCreatureDeaths g)
            | None => Some g
            end
          else Some g
        | TFrac n => if in_range n (Player.field (player (other s) g)) then None else Some g
        | _ => Some g
        end
    end
  else if includes ab "Restore" then
    match match_digits ab with
    | None => None
    | Some d =>
      let heal := parseInt d in
      let g := update_player s (fun p => Player.set_health
                                           (Z.min (Player.maxHealth p) (Player.health p + heal)) p) g in
      Some (addLog ("Restored " ++ Z_to_string heal ++ " health!") g)
    end
  else if streq ab "All allies +1/+1" || streq ab "All allies +2/+2" then
    let buff := if includes ab "+2/+2" then 2 else 1 in
    let g := update_player s (fun p => Player.set_field (map (buffCreature buff) (Player.field p)) p) g in
    Some (addLog ("All allies get +" ++ Z_to_string buff ++ "/+" ++ Z_to_string buff ++ "!") g)
  else if includes ab "Draw" then
    let drawCount := match match_digits ab with Some d => parseInt d | None => 2 end in
    Some (drawN (Z.to_nat drawCount) s g)
  else Some g.

(** [getCardCost(card, playerIndex)] *)
Definition getCardCost (card : Card.t) (s : side) (g : t) : Z :=
  if streq (Card.ability card) "Costs less per spell"
  then Z.max 0 (Card.cost card - Player.spellsCount (player s g))
  else Card.cost card.

(** [playCard(playerIndex, cardIndex, target, actualCost)]: the boolean
    result and the new state; [None] when a spell handler throws. *)
Definition playCard (s : side) (cardIndex : Z) (tg : target) (actualCost : option Z) (g : t)
  : option (bool * t) :=
  let p := player s g in
  if (cardIndex <? 0) || (Z.of_nat (length (Player.hand p)) <=? cardIndex) then Some (false, g)
  else
    match nth_error (Player.hand p) (Z.to_nat cardIndex) with
    | None => Some (false, g)
    | Some card =>
      let cost := match actualCost with Some c => c | None => getCardCost card s g end in
      if Player.mana p <? cost then Some (false, g)
      else if streq (Card.type card) "creature" && (7 <=? length (Player.field p))%nat
      then Some (false, g)
      else
        let g := update_player s (fun p => Player.set_mana (Player.mana p - cost)
                                            (Player.set_hand (remove_nth (Z.to_nat cardIndex) (Player.hand p)) p)) g in
        let og := if streq (Card.type card) "creature" then Some (playCreature s card g)
                  else if streq (Card.type card) "spell" then
                    let g := update_player s (fun p => Player.set_spellsCount (Player.spellsCount p + 1) p) g in
                    match handleSpell s card tg g with
                    | Some g => Some (push_graveyard s card g)
                    | None => None
                    end
                  else Some g in
        match og with
        | Some g => Some (true, addLog (playerLabel s ++ " played " ++ Card.name card) g)
        | None => None
        end
    end.

Definition set_field_at (s : side) (i : nat) (c : Card.t) (g : t) : t :=
  update_player s (fun p => Player.set_field (set_nth i c (Player.field p)) p) g.

Definition isEnrage (c : Card.t) : bool := streq (Card.ability c) "Enrage".

Definition enrageLog (c : Card.t) (g : t) : t := addLog (Card.name c ++ " enrages! +2 attack!") g.

(** [creatureCombat(attackerOwner, attacker, target)], with [attacker] and
    [target] the objects at positions [ai] of the attacker's field and [ti]
    of the defender's field.  The two objects are mutated in place; no
    other part of the state refers to them and nothing reads the fields
    before [checkCreatureDeaths], so they are held locally and stored back
    into their slots just before the death sweep. *)
Definition creatureCombat (s : side) (ai ti : nat) (g : t) : t :=
  match nth_error (Player.field (player s g)) ai,
        nth_error (Player.field (player (other s) g)) ti with
  | Some attacker, Some target =>
    if Card.immune target || Card.tempImmune target then
      addLog (Card.name target ++ " is Immune!") g
    else
      let aab := Card.ability attacker in
      let tab := Card.ability target in
      let '(target, attackerDamage, g) :=
        if Card.divineShield target then
          (Card.set_divineShield false target, 0,
           addLog (Card.name target ++ "'s Divine Shield absorbs the damage!") g)
        else (target, Card.attack attacker, g) in
      let '(attacker, targetDamage, g) :=
        if Card.divineShield attacker && (0 <? Card.attack target) then
          (Card.set_divineShield false attacker, 0,
           addLog (Card.name attacker ++ "'s Divine Shield absorbs the damage!") g)
        else (attacker, Card.attack target, g) in
      let '(attacker, target, g) :=
        if streq aab "First Strike" && negb (includes tab "First Strike") then
          let (_, target) := Card.takeDamage attackerDamage target in
          let g := if isEnrage target && (0 <? Card.health target) then enrageLog target g else g in
          if 0 <? Card.health target then
            let (_, attacker) := Card.takeDamage targetDamage attacker in
            let g := if isEnrage attacker && (0 <? Card.health attacker) then enrageLog attacker g else g in
            (attacker, target, g)
          else (attacker, target, g)
        else if streq tab "First Strike" && negb (includes aab "First Strike") then
          let (_, attacker) := Card.takeDamage targetDamage attacker in
          let g := if isEnrage attacker && (0 <? Card.health attacker) then enrageLog attacker g else g in
          if 0 <? Card.health attacker then
            let (_, target) := Card.takeDamage attackerDamage target in
            let g := if isEnrage target && (0 <? Card.health target) then enrageLog target g else g in
            (attacker, target, g)
          else (attacker, target, g)
        else
          let (targetDamageDealt, target) := Card.takeDamage attackerDamage target in
          let (attackerDamageTaken, attacker) := Card.takeDamage targetDamage attacker in
          let g := if isEnrage target && (0 <? Card.health target) && (0 <? targetDamageDealt)
                   then enrageLog target g else g in
          let g := if isEnrage attacker && (0 <? Card.health attacker) && (0 <? attackerDamageTaken)
                   then enrageLog attacker g else g in
          (attacker, target, g) in
      let '(target, g) :=
        if (streq aab "Poison" || streq aab "Deathtouch" || streq aab "Instant kill"
            || Card.instantKill attacker) && (0 <? attackerDamage) then
          (Card.set_health 0 target,
           addLog (Card.name attacker ++ "'s deadly ability destroys " ++ Card.name target ++ "!") g)
        else (target, g) in
      let '(attacker, g) :=
        if (streq tab "Poison" || streq tab "Deathtouch") && (0 <? targetDamage) then
          (Card.set_health 0 attacker,
           addLog (Card.name target ++ "'s deadly ability destroys " ++ Card.name attacker ++ "!") g)
        else (attacker, g) in
      let '(target, g) :=
        if streq aab "Freeze enemy" && (0 <? Card.health target) then
          (Card.set_frozen true target, addLog (Card.name target ++ " is frozen!") g)
        else (target, g) in
      let g :=
        if streq aab "Trample" && (Card.health target <=? 0) then
          let excess := Z.abs (Card.health target) in
          if 0 <? excess then
            let g := update_player (other s) (fun d => Player.set_health (Player.health d - excess) d) g in
            let g := addLog ("Trample deals " ++ Z_to_string excess ++ " excess damage!") g in
            snd (checkGameOver g)
          else g
        else g in
      let g :=
        if (includes aab "Lifesteal" || includes aab "Lifelink") && (0 <? attackerDamage) then
          let healAmount := Z.min attackerDamage
                              (if Card.maxHealth target =? 0 then attackerDamage else Card.maxHealth target) in
          let g := update_player s (fun a => Player.set_health
                                               (Z.min (Player.maxHealth a) (Player.health a + healAmount)) a) g in
          addLog ("Lifesteal heals for " ++ Z_to_string healAmount ++ "!") g
        else g in
      let g := addLog (Card.name attacker ++ " battles " ++ Card.name target ++ "!") g in
      let g := set_field_at (other s) ti target (set_field_at s ai attacker g) in
      checkCreatureDeaths g
  | _, _ => g
  end.

(** [c => c.ability === 'Taunt' || c.taunt] *)
Definition isTaunt (c : Card.t) : bool := streq (Card.ability c) "Taunt" || Card.taunt c.

(** Checks 4 to 6 of [processAttack] on a creature target: the [addLog]
    message of the first failing one. *)
Definition targetRejection (attacker : Card.t) (targetIndex : Z) (opp : Player.t) : option string :=
  if in_range targetIndex (Player.field opp) then
    match nth_error (Player.field opp) (Z.to_nat targetIndex) with
    | Some tc =>
        if negb (Card.tapped tc) && negb (Card.taunt tc) && negb (streq (Card.ability tc) "Taunt") then
          Some "Cannot attack defending creatures!"
        else if Card.stealth tc then Some "Cannot attack stealthed creatures!"
        else if streq (Card.ability tc) "Flying"
                && negb (streq (Card.ability attacker) "Flying")
                && negb (streq (Card.ability attacker) "Reach") then
          Some "Cannot reach flying creatures without Flying or Reach!"
        else None
    | None => None
    end
  else None.

(** [processAttack(playerIndex, attackerIndex, targetIndex)]; the indices
    sent by the client are integers. *)
Definition processAttack (s : side) (attackerIndex targetIndex : Z) (g : t) : bool * t :=
  let p := player s g in
  let opp := player (other s) g in
  if (attackerIndex <? 0) || (Z.of_nat (length (Player.field p)) <=? attackerIndex) then (false, g)
  else
  match nth_error (Player.field p) (Z.to_nat attackerIndex) with
  | None => (false, g)
  | Some attacker =>
    if negb (Card.canAttack attacker) then
      (false, addLog (Card.name attacker ++ " cannot attack right now!") g)
    else if (targetIndex =? -1) && Card.canOnlyAttackCreatures attacker then
      (false, addLog (Card.name attacker ++ " with Rush can only attack creatures this turn!") g)
    else if (0 <? length (filter isTaunt (Player.field opp)))%nat
            && ((targetIndex =? -1)
                || (in_range targetIndex (Player.field opp)
                    && match nth_error (Player.field opp) (Z.to_nat targetIndex) with
                       | Some tc => negb (Card.taunt tc) && negb (streq (Card.ability tc) "Taunt")
                       | None => false
                       end)) then
      (false, addLog "Must attack Taunt creatures first!" g)
    else
    match targetRejection attacker targetIndex opp with
    | Some msg => (false, addLog msg g)
    | None =>
    let '(attacker, g) :=
      if Card.stealth attacker
      then (Card.set_stealth false attacker, addLog (Card.name attacker ++ " loses stealth!") g)
      else (attacker, g) in
    let attacker := Card.markAttacked attacker in
    let g := set_field_at s (Z.to_nat attackerIndex) attacker g in
    if targetIndex =? -1 then
      let damage := Card.attack attacker in
      let g := update_player (other s) (fun o => Player.set_health (Player.health o - damage) o) g in
      let g := addLog (Card.name attacker ++ " attacks for " ++ Z_to_string damage ++ " damage!") g in
      let g := if includes (Card.ability attacker) "Lifesteal" || includes (Card.ability attacker) "Lifelink"
               then addLog ("Lifesteal heals for " ++ Z_to_string damage ++ "!")
                      (update_player s (fun a => Player.set_health
                                                   (Z.min (Player.maxHealth a) (Player.health a + damage)) a) g)
               else g in
      (true, snd (checkGameOver g))
    else if in_range targetIndex (Player.field (player (other s) g)) then
      (true, creatureCombat s (Z.to_nat attackerIndex) (Z.to_nat targetIndex) g)
    else (true, g)
    end
  end.

(** [opponent.field.filter(c => c.ability === 'Burn').length] *)
Definition burnCount (p : Player.t) : nat :=
  length (filter (fun c => streq (Card.ability c) "Burn") (Player.field p)).

(** [startNewTurn(playerIndex)] *)
Definition startNewTurn (s : side) (g : t) : t :=
  let g := update_player s (fun p => Player.set_maxMana (Z.min 10 (Player.maxMana p + 1)) p) g in
  let g := update_player s (fun p => Player.set_mana (Player.maxMana p) p) g in
  let g := update_player s (fun p => Player.set_field (map Card.resetForTurn (Player.field p)) p) g in
  let burnDamage := Z.of_nat (burnCount (player (other s) g)) in
  let g := if 0 <? burnDamage then
             let g := update_player s (fun p => Player.set_health (Player.health p - burnDamage) p) g in
             let g := addLog ("Burn deals " ++ Z_to_string burnDamage ++ " damage to "
                              ++ playerLabel s ++ "!") g in
             snd (checkGameOver g)
           else g in
  let g := drawCard s g in
  addLog (playerLabel s ++ "'s turn begins!") g.

Definition clearTempImmune (p : Player.t) : Player.t :=
  Player.set_field (map (Card.set_tempImmune false) (Player.field p)) p.

(** [endTurn(playerIndex)] *)
Definition endTurn (s : side) (g : t) : bool * t :=
  if negb (side_eqb (currentTurn g) s) then (false, g)
  else
    let g := update_player P1 clearTempImmune (update_player P0 clearTempImmune g) in
    let g := set_currentTurn (other (currentTurn g)) g in
    let g := set_totalTurns (totalTurns g + 1) g in
    let g := if side_eqb (currentTurn g) P0 then set_turnNumber (turnNumber g + 1) g else g in
    (true, startNewTurn (currentTurn g) g).

(** The client view of a hand: the cards, or [{ length }] only. *)
Inductive handView := HandCards (cs : list Card.t) | HandLength (n : nat).

Record playerView := mkPlayerView {
  v_health : Z; v_maxHealth : Z; v_mana : Z; v_maxMana : Z;
  v_hand : handView; v_deck : nat; v_field : list Card.t; v_graveyard : list Card.t;
  v_spellsCount : Z; v_spellPower : Z
}.

Record gameView := mkGameView {
  v_players : playerView * playerView; v_currentTurn : Z; v_turnNumber : Z;
  v_totalTurns : Z; v_gameOver : bool; v_winner : option Z; v_gameLog : list logEntry
}.

Definition viewPlayer (p : Player.t) : playerView :=
  {| v_health := Player.health p; v_maxHealth := Player.maxHealth p; v_mana := Player.mana p;
     v_maxMana := Player.maxMana p; v_hand := HandCards (Player.hand p);
     v_deck := length (Player.deck p); v_field := Player.field p;
     v_graveyard := Player.graveyard p; v_spellsCount := Player.spellsCount p;
     v_spellPower := Player.spellPower p |}.

(** [getGameState()] *)
Definition getGameState (g : t) : gameView :=
  {| v_players := (viewPlayer (fst (players g)), viewPlayer (snd (players g)));
     v_currentTurn := index (currentTurn g); v_turnNumber := turnNumber g;
     v_totalTurns := totalTurns g; v_gameOver := gameOver g;
     v_winner := option_map index (winner g); v_gameLog := lastn 5 (gameLog g) |}.



End ServerGame.

(** ** Catalog entries used in the scenarios ([cards.js]) *)

Definition shieldBearer : Card.template :=
  {| Card.t_name := "Shield Bearer"; Card.t_cost := 2; Card.t_type := "creature";
     Card.t_attack := 1; Card.t_health := 4; Card.t_ability := "Taunt";
     Card.t_emoji := "shield"; Card.t_rarity := "common" |}.

Definition forestWolf : Card.template :=
  {| Card.t_name := "Forest Wolf"; Card.t_cost := 2; Card.t_type := "creature";
     Card.t_attack := 3; Card.t_health := 2; Card.t_ability := "Rush";
     Card.t_emoji := "wolf"; Card.t_rarity := "common" |}.

Definition peasant : Card.template :=
  {| Card.t_name := "Peasant"; Card.t_cost := 1; Card.t_type := "creature";
     Card.t_attack := 1; Card.t_health := 1; Card.t_ability := "";
     Card.t_emoji := "farmer"; Card.t_rarity := "common" |}.

Definition militia : Card.template :=
  {| Card.t_name := "Militia"; Card.t_cost := 3; Card.t_type := "creature";
     Card.t_attack := 3; Card.t_health := 3; Card.t_ability := "";
     Card.t_emoji := "dagger"; Card.t_rarity := "common" |}.

Import ServerGame.

(** The Taunt scenario: player 1 has played Shield Bearer on its turn, and
    player 0 holds Forest Wolf with 2 mana. *)
Definition tauntScenario : t :=
  let g := create "room" 0 in
  let g := update_player P1 (fun p => Player.set_hand [Card.create "sb" shieldBearer] (Player.set_mana 2 p)) g in
  let g := match playCard P1 0 TNull None g with Some (_, g) => g | None => g end in
  update_player P0 (fun p => Player.set_hand [Card.create "fw" forestWolf] (Player.set_mana 2 p)) g.

(** The Trample case: player 1 has played Peasant (tapped by summoning
    sickness); player 0 has a 5/5 Trample creature that is ready to attack. *)
Definition trampler : Card.template :=
  {| Card.t_name := "Trampler"; Card.t_cost := 5; Card.t_type := "creature";
     Card.t_attack := 5; Card.t_health := 5; Card.t_ability := "Trample";
     Card.t_emoji := "rhino"; Card.t_rarity := "rare" |}.

Definition trampleScenario : t :=
  let g := create "room" 0 in
  let g := update_player P1 (fun p => Player.set_hand [Card.create "pe" peasant] (Player.set_mana 1 p)) g in
  let g := match playCard P1 0 TNull None g with Some (_, g) => g | None => g end in
  update_player P0 (fun p => Player.set_field [Card.resetForTurn (Card.create "tr" trampler)] p) g.

(** A creature holding Divine Shield that is also [immune]. *)
Definition shieldedImmune : Card.t :=
  Card.set_immune true
    (Card.create "ds"
       {| Card.t_name := "Guardian"; Card.t_cost := 4; Card.t_type := "creature";
          Card.t_attack := 3; Card.t_health := 3; Card.t_ability := "Divine Shield";
          Card.t_emoji := "angel"; Card.t_rarity := "rare" |}).

(** A match in which player 0 holds Militia (cost 3) with 5 mana. *)
Definition costScenario : t :=
  update_player P0 (fun p => Player.set_hand [Card.create "mi" militia] (Player.set_mana 5 p))
    (create "room" 0).

(** ** Sequences of card operations *)

(** Successive [takeDamage] calls on one card instance. *)
Fixpoint takeDamageSeq (ds : list Z) (c : Card.t) : Card.t :=
  match ds with
  | [] => c
  | d :: ds => takeDamageSeq ds (snd (Card.takeDamage d c))
  end.

Inductive attackOp := OpCanAttack | OpMarkAttacked.

(** Runs the calls in order; [canAttack()] reads the card only. *)
Fixpoint runAttackOps (ops : list attackOp) (c : Card.t) : Card.t :=
  match ops with
  | [] => c
  | OpCanAttack :: ops => runAttackOps ops c
  | OpMarkAttacked :: ops => runAttackOps ops (Card.markAttacked c)
  end.

Fixpoint countMarks (ops : list attackOp) : nat :=
  match ops with
  | [] => O
  | OpCanAttack :: ops => countMarks ops
  | OpMarkAttacked :: ops => S (countMarks ops)
  end.

(** [n] attack attempts gated as in [processAttack]: [markAttacked()] runs
    only when [canAttack()] holds; the number of attacks performed. *)
Fixpoint attacksGranted (n : nat) (c : Card.t) : nat :=
  match n with
  | O => O
  | S n' => if Card.canAttack c then S (attacksGranted n' (Card.markAttacked c))
            else attacksGranted n' c
  end.


(** The hand and deck of a player after one [drawCard]. *)
Definition drawnHandDeck (p : Player.t) : list Card.t * list Card.t :=
  match Player.deck p with
  | c :: rest => if (length (Player.hand p) <? 10)%nat then (app (Player.hand p) [c], rest)
                 else (Player.hand p, Player.deck p)
  | [] => (Player.hand p, Player.deck p)
  end.

(** The mana of both players. *)
Definition manas (g : t) : Z * Z :=
  (Player.mana (fst (players g)), Player.mana (snd (players g))).

(** The per-turn used flag of a Windfury or Double Strike creature. *)
Definition extraAttackUsed (c : Card.t) : bool :=
  if streq (Card.ability c) "Windfury" then Card.windfuryUsed c else Card.doubleStrikeUsed c.

Definition hasExtraAttack (c : Card.t) : Prop :=
  Card.ability c = "Windfury" \/ Card.ability c = "Double Strike".

(** ** Reachable matches *)

(** A card whose attack is not negative. *)
Definition cardOK (c : Card.t) : Prop := 0 <= Card.attack c.

(** The bounds the engine keeps on each player record. *)
Record bounded (p : Player.t) : Prop := {
  b_mana : 0 <= Player.mana p;
  b_maxMana : 0 <= Player.maxMana p <= 10;
  b_health : Player.health p <= Player.maxHealth p;
  b_maxHealth : Player.maxHealth p = 30;
  b_spellPower : 0 <= Player.spellPower p;
  b_field : (length (Player.field p) <= 7)%nat;
  b_hand : (length (Player.hand p) <= 10)%nat;
  b_handOK : Forall cardOK (Player.hand p);
  b_deckOK : Forall cardOK (Player.deck p);
  b_fieldOK : Forall cardOK (Player.field p)
}.

(** The invariant of a match. *)
Record inv (g : t) : Prop := {
  i_players : forall x, bounded (player x g);
  i_log : (length (gameLog g) <= 20)%nat;
  i_winner : gameOver g = false <-> winner g = None;
  i_turns : totalTurns g = 2 * turnNumber g - 1 + index (currentTurn g)
}.

(** What an internal operation from [g] to [g'] keeps: the invariant, a
    decided game and its winner, and the turn counters. *)
Definition Pres (g g' : t) : Prop :=
  (inv g -> inv g') /\ (gameOver g = true -> gameOver g' = true /\ winner g' = winner g) /\
  currentTurn g' = currentTurn g /\ turnNumber g' = turnNumber g /\ totalTurns g' = totalTurns g.

(** One message handled by the server: a deck initialisation (with the
    catalog's non-negative attack values), a card play or an attack that
    returns (a call that throws is not followed), an end of turn, or the
    clock moving on. *)
Inductive step : t -> t -> Prop :=
| st_init s cards rnd g :
    Forall (fun tp => 0 <= Card.t_attack tp) cards -> step g (snd (initPlayerDeck s cards rnd g))
| st_play s i tg ac b g g' : playCard s i tg ac g = Some (b, g') -> step g g'
| st_attack s ai ti g : step g (snd (processAttack s ai ti g))
| st_end s g : step g (snd (endTurn s g))
| st_clock c g : step g (set_now c g).

(** The matches reachable from [new ServerGame(roomId)]. *)
Inductive reachable : t -> Prop :=
| reach_create rid clock : reachable (create rid clock)
| reach_step g g' : reachable g -> step g g' -> reachable g'.

(** ** Further examples and views *)

(** A plain 3/2 creature without ability. *)
Definition grunt : Card.template :=
  {| Card.t_name := "Grunt"; Card.t_cost := 2; Card.t_type := "creature"; Card.t_attack := 3;
     Card.t_health := 2; Card.t_ability := ""; Card.t_emoji := ""; Card.t_rarity := "common" |}.

(** [Meteor] of the catalog: [Deal 6 damage]. *)
Definition meteor : Card.template :=
  {| Card.t_name := "Meteor"; Card.t_cost := 5; Card.t_type := "spell"; Card.t_attack := 0;
     Card.t_health := 0; Card.t_ability := "Deal 6 damage"; Card.t_emoji := "meteor"; Card.t_rarity := "epic" |}.

(** The field and graveyard of a player. *)
Definition fieldGrave (p : Player.t) : list Card.t * list Card.t := (Player.field p, Player.graveyard p).

(** ** A short match *)

(** Players are numbered 1 and 2 as in the log messages (indices [P0] and
    [P1]).  The decks: seven Peasants for player 1; for player 2 five Peasants,
    then Militia and a Peasant, so that Militia is the next card it draws. *)
Definition duelDeck0 : list Card.template := repeat peasant 7.

Definition duelDeck1 : list Card.template := [peasant; peasant; peasant; peasant; peasant; militia; peasant].

(** [Math.random] answering so that every swap of the shuffle is trivial. *)
Definition keepOrder (i : nat) : nat := i.

(** The state after a [playCard] call that returns. *)
Definition afterPlay (g : t) (r : option (bool * t)) : t :=
  match r with Some (_, g') => g' | None => g end.

(** Both decks initialised; player 1 is to move with 1 mana. *)
Definition duelOpening : t :=
  snd (initPlayerDeck P1 duelDeck1 keepOrder
         (snd (initPlayerDeck P0 duelDeck0 keepOrder (create "room" 0)))).

(** Player 1 has played a Peasant. *)
Definition duelPlayed : t := afterPlay duelOpening (playCard P0 0 TNull None duelOpening).

(** Player 1 has ended its turn, player 2 has drawn Militia and played a
    Peasant. *)
Definition duelAnswered : t :=
  let g := snd (endTurn P0 duelPlayed) in afterPlay g (playCard P1 0 TNull None g).

(** Player 2 has ended its turn: player 1's Peasant is ready to attack and
    player 2's Peasant is still tapped. *)
Definition duelReady : t := snd (endTurn P1 duelAnswered).

(** The shuffle answer that swaps the last two cards of a seven-card deck. *)
Definition swapLastTwo (i : nat) : nat := if Nat.eqb i 6 then 5 else i.

(** The same opening, with player 2's deck shuffled so that its last two
    cards trade places: Peasant is now its next card, Militia the one after. *)
Definition duelOpeningSwapped : t :=
  snd (initPlayerDeck P1 duelDeck1 swapLastTwo
         (snd (initPlayerDeck P0 duelDeck0 keepOrder (create "room" 0)))).

Definition duelPlayedSwapped : t :=
  afterPlay duelOpeningSwapped (playCard P0 0 TNull None duelOpeningSwapped).

(** * Properties *)

(** ** Basic equations of the state operations *)

Lemma player_update_same s f g : player s (update_player s f g) = f (player s g).
Proof. destruct s; reflexivity. Qed.

Lemma player_update_other s f g : player (other s) (update_player s f g) = player (other s) g.
Proof. destruct s; reflexivity. Qed.

Lemma player_update s s' f g :
  player s' (update_player s f g) = if side_eqb s s' then f (player s' g) else player s' g.
Proof. destruct s, s'; reflexivity. Qed.

Lemma players_addLog m g : players (addLog m g) = players g.
Proof. reflexivity. Qed.

Lemma player_addLog s m g : player s (addLog m g) = player s g.
Proof. destruct s; reflexivity. Qed.

Lemma players_checkGameOver g : players (snd (checkGameOver g)) = players g.
Proof. unfold checkGameOver; destruct (_ && _); [reflexivity|]; destruct (_ && _); reflexivity. Qed.

Lemma player_checkGameOver s g : player s (snd (checkGameOver g)) = player s g.
Proof. destruct s; unfold player; rewrite players_checkGameOver; reflexivity. Qed.

(** ** Card rules *)

Lemma takeDamage_enrage_step (d : Z) (c : Card.t) :
  (Card.enraged c = true -> Card.enraged (snd (Card.takeDamage d c)) = true) /\
  Card.attack (snd (Card.takeDamage d c)) =
    Card.attack c + (if Card.enraged c then 0
                     else if Card.enraged (snd (Card.takeDamage d c)) then 2 else 0).
Proof.
  unfold Card.takeDamage.
  destruct (d <=? 0); [simpl; destruct (Card.enraged c); split; auto; lia |].
  destruct (Card.immune c || Card.tempImmune c); [simpl; destruct (Card.enraged c); split; auto; lia |].
  destruct (Card.divineShield c); [simpl; destruct (Card.enraged c); split; auto; lia |].
  destruct (Card.enraged c) eqn:He; simpl; rewrite ?He; simpl.
  - rewrite !andb_false_r; simpl; split; auto; lia.
  - rewrite andb_true_r.
    destruct (_ && _ && _); simpl; [split; [discriminate | lia] | rewrite He; split; auto; lia].
Qed.

Lemma markAttacked_ability (c : Card.t) : Card.ability (Card.markAttacked c) = Card.ability c.
Proof.
  unfold Card.markAttacked; simpl.
  destruct (Card.vigilance c); simpl;
    repeat match goal with |- context [if ?b then _ else _] => destruct b end; reflexivity.
Qed.

Lemma markAttacked_sets_used (c : Card.t) :
  hasExtraAttack c -> extraAttackUsed (Card.markAttacked c) = true.
Proof.
  destruct c; unfold hasExtraAttack; simpl; intros [H | H]; subst;
  destruct vigilance, windfuryUsed, doubleStrikeUsed; reflexivity.
Qed.

Lemma markAttacked_after_used (c : Card.t) :
  hasExtraAttack c -> extraAttackUsed c = true ->
  Card.hasAttackedThisTurn (Card.markAttacked c) = true /\
  extraAttackUsed (Card.markAttacked c) = true.
Proof.
  destruct c; unfold hasExtraAttack, extraAttackUsed; simpl; intros [H | H] Hu; subst;
  simpl in Hu; subst; destruct vigilance; auto.
Qed.

Lemma runAttackOps_ability ops c : Card.ability (runAttackOps ops c) = Card.ability c.
Proof.
  revert c; induction ops as [|[] ops IH]; intros c; simpl; auto.
  rewrite IH; apply markAttacked_ability.
Qed.

Lemma hasExtraAttack_markAttacked c : hasExtraAttack c -> hasExtraAttack (Card.markAttacked c).
Proof. unfold hasExtraAttack; rewrite markAttacked_ability; auto. Qed.

Lemma runAttackOps_after_used ops c :
  hasExtraAttack c -> extraAttackUsed c = true ->
  extraAttackUsed (runAttackOps ops c) = true /\
  ((1 <= countMarks ops)%nat -> Card.hasAttackedThisTurn (runAttackOps ops c) = true).
Proof.
  revert c; induction ops as [|[] ops IH]; intros c He Hu; simpl.
  - split; auto; lia.
  - auto.
  - destruct (markAttacked_after_used c He Hu) as [Ha Hu'].
    destruct (IH _ (hasExtraAttack_markAttacked c He) Hu') as [IH1 IH2].
    split; auto. intros _.
    destruct (countMarks ops) eqn:Hc; [|apply IH2; lia].
    clear IH2; revert Ha Hu' Hc. generalize (Card.markAttacked c). clear.
    induction ops as [|[] ops IH]; intros c Ha Hu Hc; simpl in *; auto; discriminate.
Qed.

Lemma attacksGranted_done n c :
  Card.hasAttackedThisTurn c = true -> extraAttackUsed c = true -> hasExtraAttack c ->
  attacksGranted n c = O.
Proof.
  revert c; induction n as [|n IH]; intros c Ha Hu He; simpl; auto.
  unfold Card.canAttack; rewrite Ha, andb_false_r; auto.
Qed.

Lemma attacksGranted_used n c :
  extraAttackUsed c = true -> hasExtraAttack c -> (attacksGranted n c <= 1)%nat.
Proof.
  revert c; induction n as [|n IH]; intros c Hu He; simpl; [lia|].
  destruct (Card.canAttack c); auto.
  destruct (markAttacked_after_used c He Hu) as [Ha Hu'].
  rewrite attacksGranted_done; auto using hasExtraAttack_markAttacked.
Qed.

Lemma takeDamageSeq_enrage (ds : list Z) (c : Card.t) :
  (Card.enraged c = true -> Card.enraged (takeDamageSeq ds c) = true) /\
  Card.attack (takeDamageSeq ds c) =
    Card.attack c + (if Card.enraged c then 0
                     else if Card.enraged (takeDamageSeq ds c) then 2 else 0).
Proof.
  revert c; induction ds as [|d ds IH]; intros c; simpl.
  - destruct (Card.enraged c); split; auto; lia.
  - destruct (takeDamage_enrage_step d c) as [S1 S2].
    destruct (IH (snd (Card.takeDamage d c))) as [I1 I2].
    split; [auto|]. rewrite I2, S2.
    destruct (Card.enraged c) eqn:E.
    + rewrite (S1 eq_refl); lia.
    + destruct (Card.enraged (snd (Card.takeDamage d c))) eqn:E1.
      * rewrite (I1 eq_refl); lia.
      * lia.
Qed.

Lemma attacksGranted_le_2 n c : hasExtraAttack c -> (attacksGranted n c <= 2)%nat.
Proof.
  revert c; induction n as [|n IH]; intros c He; simpl; [lia|].
  destruct (Card.canAttack c); [|auto].
  pose proof (attacksGranted_used n (Card.markAttacked c) (markAttacked_sets_used c He)
                (hasExtraAttack_markAttacked c He)). lia.
Qed.

(** ** C6 *)

(** [takeDamage] never changes the immunity flags and never raises a
    Divine Shield. *)
Lemma takeDamage_flags d c :
  Card.immune (snd (Card.takeDamage d c)) = Card.immune c /\
  Card.tempImmune (snd (Card.takeDamage d c)) = Card.tempImmune c /\
  (Card.divineShield c = false -> Card.divineShield (snd (Card.takeDamage d c)) = false).
Proof.
  unfold Card.takeDamage.
  destruct (d <=? 0); [auto|].
  destruct (Card.immune c || Card.tempImmune c); [auto|].
  destruct (Card.divineShield c) eqn:Hs; [simpl; auto|].
  cbv zeta. destruct (_ && _ && _ && _); simpl; auto.
Qed.

Lemma takeDamageSeq_flags ds c :
  Card.immune (takeDamageSeq ds c) = Card.immune c /\
  Card.tempImmune (takeDamageSeq ds c) = Card.tempImmune c /\
  (Card.divineShield c = false -> Card.divineShield (takeDamageSeq ds c) = false).
Proof.
  revert c; induction ds as [|d ds IH]; intros c; simpl; [auto|].
  destruct (IH (snd (Card.takeDamage d c))) as (H1 & H2 & H3).
  destruct (takeDamage_flags d c) as (F1 & F2 & F3).
  rewrite H1, H2, F1, F2. auto.
Qed.

(** An unshielded, non-immune creature hit for [d > 0] loses
    [min(d, health)]. *)
Lemma takeDamage_unshielded d c :
  0 < d -> Card.immune c = false -> Card.tempImmune c = false -> Card.divineShield c = false ->
  fst (Card.takeDamage d c) = Z.min d (Card.health c) /\
  Card.health (snd (Card.takeDamage d c)) = Card.health c - Z.min d (Card.health c).
Proof.
  intros Hd Hi Ht Hs. unfold Card.takeDamage.
  destruct (d <=? 0) eqn:Hle; [apply Z.leb_le in Hle; lia|].
  rewrite Hi, Ht, Hs. cbv zeta. destruct (_ && _ && _ && _); simpl; auto.
Qed.

(** C6 (counterexample): a creature that holds Divine Shield and is
    [immune], or [tempImmune], takes a hit of 3 and keeps its shield: the
    immunity check of [takeDamage] comes before the shield is consumed. *)
Lemma divine_shield_kept_when_immune :
  Card.divineShield shieldedImmune = true /\
  Card.divineShield (snd (Card.takeDamage 3 shieldedImmune)) = true /\
  Card.divineShield (snd (Card.takeDamage 3
    (Card.set_tempImmune true (Card.set_immune false shieldedImmune)))) = true.
Proof. vm_compute. repeat split; reflexivity. Qed.

(** C6 (amended): for a creature with an active Divine Shield and a hit
    of any amount > 0: when the creature is [immune] or [tempImmune] the
    hit does nothing at all and the shield stays; otherwise the hit deals
    0, leaves health unchanged and clears the shield, and afterwards,
    whatever [takeDamage] calls come in between, every call of an amount
    [d > 0] deals [min(d, health)] and lowers health by it. *)
Theorem divine_shield_absorbs_one_hit (c : Card.t) (amount : Z) :
  Card.divineShield c = true -> 0 < amount ->
  ((Card.immune c || Card.tempImmune c) = true -> Card.takeDamage amount c = (0, c)) /\
  (Card.immune c = false -> Card.tempImmune c = false ->
   fst (Card.takeDamage amount c) = 0 /\
   Card.health (snd (Card.takeDamage amount c)) = Card.health c /\
   Card.divineShield (snd (Card.takeDamage amount c)) = false /\
   forall (ds : list Z) (d : Z), 0 < d ->
     let c' := takeDamageSeq ds (snd (Card.takeDamage amount c)) in
     Card.divineShield c' = false /\
     fst (Card.takeDamage d c') = Z.min d (Card.health c') /\
     Card.health (snd (Card.takeDamage d c')) = Card.health c' - Z.min d (Card.health c')).
Proof.
  intros Hs Ha.
  assert (Hpos : (amount <=? 0) = false) by (apply Z.leb_gt; lia).
  split.
  - intros Him. unfold Card.takeDamage. rewrite Hpos, Him. reflexivity.
  - intros Hi Ht.
    assert (E : Card.takeDamage amount c = (0, Card.set_divineShield false c)).
    { unfold Card.takeDamage. rewrite Hpos, Hi, Ht, Hs. reflexivity. }
    rewrite E; cbn [fst snd]. split; [reflexivity|]. split; [reflexivity|]. split; [reflexivity|].
    intros ds d Hd. cbv zeta.
    destruct (takeDamageSeq_flags ds (Card.set_divineShield false c)) as (F1 & F2 & F3).
    assert (Hs' : Card.divineShield (takeDamageSeq ds (Card.set_divineShield false c)) = false)
      by (apply F3; reflexivity).
    split; [exact Hs'|].
    apply takeDamage_unshielded; [exact Hd | rewrite F1; exact Hi | rewrite F2; exact Ht | exact Hs'].
Qed.

Lemma divine_shield_absorbs_one_hit_witness :
  let shielded := Card.set_immune false shieldedImmune in
  let held := Card.set_tempImmune true shielded in
  Card.takeDamage 4 held = (0, held) /\
  fst (Card.takeDamage 5 shielded) = 0 /\
  Card.health (snd (Card.takeDamage 2 (takeDamageSeq [1; 0] (snd (Card.takeDamage 5 shielded))))) = 0.
Proof.
  cbv zeta. split.
  - apply (proj1 (divine_shield_absorbs_one_hit
                    (Card.set_tempImmune true (Card.set_immune false shieldedImmune)) 4
                    eq_refl eq_refl)). reflexivity.
  - destruct (proj2 (divine_shield_absorbs_one_hit (Card.set_immune false shieldedImmune) 5
                       eq_refl eq_refl) eq_refl eq_refl) as (H0 & _ & _ & H).
    split; [exact H0|].
    destruct (H [1; 0] 2 eq_refl) as (_ & _ & E). cbv zeta in E.
    rewrite E. vm_compute. reflexivity.
Defined.

(** ** C7 *)

(** C7: over any sequence of [takeDamage] calls the attack of a card
    changes only through Enrage, by exactly 2 when the [enraged] flag goes
    from false to true and by 0 otherwise; the flag is never cleared, so the
    bonus is granted at most once.  The bonus fires on a call to an
    Enrage creature not yet enraged (no immunity, no shield) that deals
    positive damage and leaves health above 0. *)
Theorem enrage_fires_at_most_once (c : Card.t) (ds : list Z) :
  (Card.enraged c = true -> Card.enraged (takeDamageSeq ds c) = true) /\
  Card.attack (takeDamageSeq ds c) =
    Card.attack c + (if Card.enraged c then 0
                     else if Card.enraged (takeDamageSeq ds c) then 2 else 0) /\
  (forall d : Z,
     Card.ability c = "Enrage" -> Card.enraged c = false ->
     Card.immune c = false -> Card.tempImmune c = false -> Card.divineShield c = false ->
     0 < d -> 0 < Z.min d (Card.health c) -> 0 < Card.health c - Z.min d (Card.health c) ->
     fst (Card.takeDamage d c) = Z.min d (Card.health c) /\
     Card.attack (snd (Card.takeDamage d c)) = Card.attack c + 2 /\
     Card.enraged (snd (Card.takeDamage d c)) = true).
Proof.
  destruct (takeDamageSeq_enrage ds c) as [H1 H2]. split; [exact H1|]. split; [exact H2|].
  intros d Hab Hen Hi Ht Hs Hd Hpos Hleft.
  unfold Card.takeDamage. destruct (d <=? 0) eqn:Hle; [apply Z.leb_le in Hle; lia|].
  rewrite Hi, Ht, Hs. simpl. rewrite Hab, Hen. simpl.
  apply Z.ltb_lt in Hpos, Hleft. rewrite Hpos, Hleft. simpl. auto.
Qed.

Lemma enrage_fires_at_most_once_witness :
  let c := Card.create "bz" {| Card.t_name := "Berserker"; Card.t_cost := 3; Card.t_type := "creature";
                               Card.t_attack := 3; Card.t_health := 2; Card.t_ability := "Enrage";
                               Card.t_emoji := "axe"; Card.t_rarity := "rare" |} in
  Card.attack (snd (Card.takeDamage 1 c)) = 5 /\
  Card.attack (takeDamageSeq [1; 1; 1] c) = 5.
Proof.
  cbv zeta. split.
  - destruct (enrage_fires_at_most_once
                (Card.create "bz" {| Card.t_name := "Berserker"; Card.t_cost := 3;
                   Card.t_type := "creature"; Card.t_attack := 3; Card.t_health := 2;
                   Card.t_ability := "Enrage"; Card.t_emoji := "axe"; Card.t_rarity := "rare" |}) [])
      as [_ [_ H]].
    destruct (H 1 eq_refl eq_refl eq_refl eq_refl eq_refl eq_refl eq_refl eq_refl) as [_ [Ha _]].
    exact Ha.
  - reflexivity.
Defined.

(** ** C8 *)

(** C8: for a Windfury or Double Strike creature, within one turn (no
    [resetForTurn]), [canAttack()] is false after any sequence of
    [canAttack]/[markAttacked] calls containing at least two
    [markAttacked]; and attacks gated by [canAttack()] as in
    [processAttack] happen at most twice. *)
Theorem extra_attack_at_most_two (c : Card.t) (ops : list attackOp) (n : nat) :
  hasExtraAttack c ->
  ((2 <= countMarks ops)%nat -> Card.canAttack (runAttackOps ops c) = false) /\
  (attacksGranted n c <= 2)%nat.
Proof.
  intros He. split.
  - revert c He; induction ops as [|[] ops IH]; intros c He Hc; simpl in *; [lia| auto |].
    destruct (runAttackOps_after_used ops (Card.markAttacked c)
                (hasExtraAttack_markAttacked c He) (markAttacked_sets_used c He)) as [_ H].
    unfold Card.canAttack. rewrite H by lia. rewrite andb_false_r. reflexivity.
  - apply attacksGranted_le_2; exact He.
Qed.

Lemma extra_attack_at_most_two_witness :
  let c := Card.create "wf" {| Card.t_name := "Storm Hawk"; Card.t_cost := 4; Card.t_type := "creature";
                               Card.t_attack := 3; Card.t_health := 3; Card.t_ability := "Windfury";
                               Card.t_emoji := "hawk"; Card.t_rarity := "rare" |} in
  hasExtraAttack c /\
  Card.canAttack (runAttackOps [OpCanAttack; OpMarkAttacked; OpCanAttack; OpMarkAttacked] c) = false /\
  (attacksGranted 5 c <= 2)%nat.
Proof.
  cbv zeta. split; [left; reflexivity|].
  match goal with |- Card.canAttack (runAttackOps _ ?c) = false /\ _ =>
    destruct (extra_attack_at_most_two c [OpCanAttack; OpMarkAttacked; OpCanAttack; OpMarkAttacked] 5
                (or_introl eq_refl)) as [H1 H2] end.
  split; [apply H1; simpl; lia | exact H2].
Defined.

(** ** C2 *)

(** C2 (counterexample): in the Taunt scenario, Forest Wolf (3/2) legally
    attacks Shield Bearer (1/4, Taunt) and takes Shield Bearer's 1 damage
    back: it ends at 1 health, not 2. *)
Lemma forest_wolf_not_unharmed :
  match playCard P0 0 TNull None tauntScenario with
  | Some (true, g) =>
      let '(ok, g') := processAttack P0 0 0 g in
      ok = true /\ map Card.health (Player.field (player P0 g')) <> [2]
  | _ => False
  end.
Proof. vm_compute. split; [reflexivity | discriminate]. Qed.

(** C2 (amended): after player 0 plays Forest Wolf (Rush) and it attacks
    Shield Bearer, the attack is accepted, Shield Bearer ends at 1 health,
    Forest Wolf at 1 health, and both stay on their fields. *)
Theorem shield_bearer_forest_wolf_combat :
  match playCard P0 0 TNull None tauntScenario with
  | Some (true, g) =>
      let '(ok, g') := processAttack P0 0 0 g in
      ok = true /\
      map Card.name (Player.field (player P0 g')) = ["Forest Wolf"] /\
      map Card.health (Player.field (player P0 g')) = [1] /\
      map Card.name (Player.field (player P1 g')) = ["Shield Bearer"] /\
      map Card.health (Player.field (player P1 g')) = [1]
  | _ => False
  end.
Proof. vm_compute. repeat split; reflexivity. Qed.

(** ** C3 *)

(** C3 (code defect): a 5/5 Trample creature attacks the 1/1 Peasant.
    [takeDamage] clamps the Peasant's health at 0, so the excess
    [Math.abs(target.health)] computed by [creatureCombat] is 0 and the
    defending player stays at 30 health instead of taking 4. *)
Theorem trample_excess_not_dealt :
  Card.health (hd (Card.create "x" peasant) (Player.field (player P1 trampleScenario))) = 1 /\
  Card.attack (hd (Card.create "x" peasant) (Player.field (player P0 trampleScenario))) = 5 /\
  Player.health (player P1 trampleScenario) = 30 /\
  let '(ok, g') := processAttack P0 0 0 trampleScenario in
  ok = true /\ Player.field (player P1 g') = [] /\ Player.health (player P1 g') = 30.
Proof. vm_compute. repeat split; reflexivity. Qed.

(** ** The short match *)

Lemma duel_reachable :
  reachable duelOpening /\ reachable duelPlayed /\ reachable duelAnswered /\
  reachable duelReady /\ reachable duelPlayedSwapped.
Proof.
  assert (F0 : Forall (fun tp => 0 <= Card.t_attack tp) duelDeck0)
    by (repeat constructor; cbn; lia).
  assert (F1 : Forall (fun tp => 0 <= Card.t_attack tp) duelDeck1)
    by (repeat constructor; cbn; lia).
  assert (R0 : reachable (snd (initPlayerDeck P0 duelDeck0 keepOrder (create "room" 0))))
    by (eapply reach_step; [apply reach_create | apply st_init; exact F0]).
  assert (R1 : reachable duelOpening)
    by (eapply reach_step; [exact R0 | apply st_init; exact F1]).
  assert (R1' : reachable duelOpeningSwapped)
    by (eapply reach_step; [exact R0 | apply st_init; exact F1]).
  assert (R2 : reachable duelPlayed)
    by (eapply reach_step; [exact R1 | apply (st_play P0 0 TNull None true); vm_compute; reflexivity]).
  assert (R2' : reachable duelPlayedSwapped)
    by (eapply reach_step; [exact R1' | apply (st_play P0 0 TNull None true); vm_compute; reflexivity]).
  assert (R3 : reachable (snd (endTurn P0 duelPlayed)))
    by (eapply reach_step; [exact R2 | apply st_end]).
  assert (R4 : reachable duelAnswered)
    by (eapply reach_step; [exact R3 | apply (st_play P1 0 TNull None true); vm_compute; reflexivity]).
  assert (R5 : reachable duelReady)
    by (eapply reach_step; [exact R4 | apply st_end]).
  auto.
Qed.

(** ** C10 *)







(** ** Rejections of [processAttack] *)

Lemma nth_error_in_bounds {A} (l : list A) (i : Z) :
  ((i <? 0) || (Z.of_nat (length l) <=? i)) = false -> nth_error l (Z.to_nat i) <> None.
Proof.
  intros H Hn. apply nth_error_None in Hn.
  apply orb_false_iff in H as [H1 H2]. apply Z.ltb_ge in H1. apply Z.leb_gt in H2. lia.
Qed.

(** A rejected attack changes nothing, or appends one log entry. *)
Lemma processAttack_rejected s ai ti g g' :
  processAttack s ai ti g = (false, g') ->
  (g' = g /\ ((ai <? 0) || (Z.of_nat (length (Player.field (player s g))) <=? ai)) = true)
  \/ exists m, g' = addLog m g.
Proof.
  unfold processAttack; cbv zeta.
  destruct ((ai <? 0) || _) eqn:Hb; [intros H; inversion H; subst; left; auto|].
  destruct (nth_error _ (Z.to_nat ai)) as [a|] eqn:Hn;
    [| exfalso; exact (nth_error_in_bounds _ _ Hb Hn)].
  repeat match goal with
  | |- context [if ?b then _ else _] => destruct b eqn:?
  | |- context [match targetRejection ?a ?x ?y with _ => _ end] => destruct (targetRejection a x y)
  end; simpl; intros H; inversion H; subst; right; eexists; reflexivity.
Qed.

Lemma processAttack_rejected_players s ai ti g :
  fst (processAttack s ai ti g) = false -> players (snd (processAttack s ai ti g)) = players g.
Proof.
  destruct (processAttack s ai ti g) as [ok g'] eqn:E; simpl; intros ->.
  destruct (processAttack_rejected _ _ _ _ _ E) as [[-> _] | [m ->]]; reflexivity.
Qed.

(** ** C5 *)

(** C5: when the defending field holds a Taunt creature, an attack on the
    defending player's face ([targetIndex = -1]) or on a defending creature
    without Taunt is rejected, and no player's or creature's health
    changes. *)
Theorem taunt_blocks_other_targets (s : side) (ai ti : Z) (g : t) :
  (0 < length (filter isTaunt (Player.field (player (other s) g))))%nat ->
  (ti = -1 \/
   exists tc, in_range ti (Player.field (player (other s) g)) = true /\
              nth_error (Player.field (player (other s) g)) (Z.to_nat ti) = Some tc /\
              isTaunt tc = false) ->
  fst (processAttack s ai ti g) = false /\
  forall s', Player.health (player s' (snd (processAttack s ai ti g))) = Player.health (player s' g) /\
             map Card.health (Player.field (player s' (snd (processAttack s ai ti g))))
             = map Card.health (Player.field (player s' g)).
Proof.
  intros Ht Htgt.
  assert (Hf : fst (processAttack s ai ti g) = false).
  { assert (Hc : ((0 <? length (filter isTaunt (Player.field (player (other s) g))))%nat
                  && ((ti =? -1)
                      || (in_range ti (Player.field (player (other s) g))
                          && match nth_error (Player.field (player (other s) g)) (Z.to_nat ti) with
                             | Some tc => negb (Card.taunt tc) && negb (streq (Card.ability tc) "Taunt")
                             | None => false
                             end))) = true).
    { apply andb_true_iff; split; [apply Nat.ltb_lt; exact Ht|].
      destruct Htgt as [-> | [tc [Hr [Hn Hnt]]]]; [reflexivity|].
      rewrite Hr, Hn. unfold isTaunt in Hnt. apply orb_false_iff in Hnt as [H1 H2].
      rewrite H1, H2, orb_true_r. reflexivity. }
    unfold processAttack; cbv zeta.
    destruct ((ai <? 0) || _); [reflexivity|].
    destruct (nth_error _ (Z.to_nat ai)) as [a|]; [|reflexivity].
    destruct (negb (Card.canAttack a)); [reflexivity|].
    destruct ((ti =? -1) && Card.canOnlyAttackCreatures a); [reflexivity|].
    rewrite Hc. reflexivity. }
  split; [exact Hf|].
  intros s'. pose proof (processAttack_rejected_players s ai ti g Hf) as Hp.
  destruct s'; unfold player; rewrite Hp; split; reflexivity.
Qed.

Lemma taunt_blocks_other_targets_witness :
  let g := match playCard P0 0 TNull None tauntScenario with Some (_, g) => g | None => tauntScenario end in
  (0 < length (filter isTaunt (Player.field (player (other P0) g))))%nat /\
  fst (processAttack P0 0 (-1) g) = false.
Proof.
  cbv zeta. split; [vm_compute; lia|].
  apply (taunt_blocks_other_targets P0 0 (-1)); [vm_compute; lia | left; reflexivity].
Defined.

(** ** Mana is only changed by [playCard] itself *)

Lemma manas_addLog m g : manas (addLog m g) = manas g.
Proof. reflexivity. Qed.

Lemma manas_update s f g :
  (forall p, Player.mana (f p) = Player.mana p) -> manas (update_player s f g) = manas g.
Proof. intros Hf; destruct s; unfold manas; simpl; rewrite Hf; reflexivity. Qed.

Lemma manas_checkGameOver g : manas (snd (checkGameOver g)) = manas g.
Proof. unfold manas; rewrite players_checkGameOver; reflexivity. Qed.

Lemma manas_set_nextId n g : manas (set_nextId n g) = manas g.
Proof. reflexivity. Qed.

Ltac manas_rw :=
  repeat first
    [ rewrite manas_addLog | rewrite manas_checkGameOver | rewrite manas_set_nextId
    | rewrite manas_update by (intros; reflexivity) ].

Lemma manas_drawCard s g : manas (drawCard s g) = manas g.
Proof.
  unfold drawCard. destruct (Player.deck (player s g)); [reflexivity|].
  destruct (_ <? _)%nat; manas_rw; reflexivity.
Qed.

Lemma manas_drawN n s g : manas (drawN n s g) = manas g.
Proof. revert g; induction n; intros g; simpl; [|rewrite IHn, manas_drawCard]; reflexivity. Qed.

Lemma manas_updateSpellPower g : manas (updateSpellPower g) = manas g.
Proof. unfold updateSpellPower; manas_rw; reflexivity. Qed.

Lemma manas_sweep s cs g : manas (snd (sweep s cs g)) = manas g.
Proof.
  revert g; induction cs as [|c cs IH]; intros g; simpl; [reflexivity|].
  destruct (Card.health c <=? 0).
  - rewrite IH. unfold push_graveyard. manas_rw.
    destruct (streq (Card.ability c) "Resurrect"); simpl;
      [destruct (_ <? _)%nat|]; manas_rw;
      (destruct (streq (Card.ability c) "Deathrattle: Draw"); manas_rw;
       rewrite ?manas_drawCard; manas_rw; reflexivity).
  - destruct (sweep s cs g) as [kept g'] eqn:E; simpl.
    specialize (IH g); rewrite E in IH; exact IH.
Qed.

Lemma manas_sweepSide s g : manas (sweepSide s g) = manas g.
Proof.
  unfold sweepSide. pose proof (manas_sweep s (Player.field (player s g)) g) as H.
  destruct (sweep s _ g) as [kept g']; simpl in *. manas_rw. exact H.
Qed.

Lemma manas_checkCreatureDeaths g : manas (checkCreatureDeaths g) = manas g.
Proof. unfold checkCreatureDeaths. rewrite manas_updateSpellPower, !manas_sweepSide. reflexivity. Qed.

Lemma manas_aoe cs g : manas (snd (aoe cs g)) = manas g.
Proof.
  revert g; induction cs as [|c cs IH]; intros g; simpl; [reflexivity|].
  destruct (Card.takeDamage 2 c) as [dmg c'].
  match goal with |- context [aoe cs ?g0] =>
    pose proof (IH g0) as H; destruct (aoe cs g0) as [rest g'] end.
  simpl in *. rewrite H. destruct (0 <? dmg); manas_rw; reflexivity.
Qed.

Lemma manas_summon n s g : manas (summon n s g) = manas g.
Proof.
  revert g; induction n as [|n IH]; intros g; simpl; [reflexivity|].
  destruct (_ <? _)%nat; [|reflexivity]. rewrite IH. manas_rw. reflexivity.
Qed.

Lemma manas_handleEnterPlayAbilities s c g : manas (handleEnterPlayAbilities s c g) = manas g.
Proof.
  unfold handleEnterPlayAbilities.
  destruct (_ || _ || _); [apply manas_drawN|].
  destruct (streq _ "Battlecry: Damage"); [manas_rw; reflexivity|].
  destruct (streq _ "AOE damage").
  - pose proof (manas_aoe (Player.field (player (other s) g)) g) as H.
    destruct (aoe _ g) as [fld g']; simpl in *.
    rewrite manas_checkCreatureDeaths. manas_rw. exact H.
  - destruct (streq _ "Summon skeletons"); [manas_rw; apply manas_summon|].
    destruct (streq _ "Spell Power +1"); [apply manas_updateSpellPower|reflexivity].
Qed.

Lemma manas_playCreature s c g : manas (playCreature s c g) = manas g.
Proof.
  unfold playCreature. cbv zeta.
  rewrite manas_updateSpellPower, manas_handleEnterPlayAbilities. manas_rw. reflexivity.
Qed.

Lemma manas_handleSpell s c tg g g' : handleSpell s c tg g = Some g' -> manas g' = manas g.
Proof.
  unfold handleSpell. cbv zeta. generalize (nullDefault tg); clear tg; intros tg.
  destruct (includes _ "Deal").
  - destruct (match_digits _); [|discriminate].
    destruct (targetsOpponent tg); [intros H; inversion H; subst; manas_rw; reflexivity|].
    destruct tg; try (intros H; inversion H; subst; reflexivity);
      [|destruct (in_range _ _); intros H; inversion H; subst; reflexivity].
    destruct (in_range _ _); [|intros H; inversion H; subst; reflexivity].
    destruct (nth_error _ _) as [tc|]; [|intros H; inversion H; subst; reflexivity].
    destruct (Card.takeDamage _ tc) as [dmg tc'].
    destruct (includes _ "Freeze"); simpl; intros H; inversion H; subst;
      rewrite manas_checkCreatureDeaths; manas_rw; reflexivity.
  - destruct (includes _ "Restore").
    + destruct (match_digits _); [|discriminate]. intros H; inversion H; subst; manas_rw; reflexivity.
    + destruct (_ || _); [intros H; inversion H; subst; manas_rw; reflexivity|].
      destruct (includes _ "Draw"); intros H; inversion H; subst; [apply manas_drawN|reflexivity].
Qed.

Lemma manas_player s g1 g2 : manas g1 = manas g2 -> Player.mana (player s g1) = Player.mana (player s g2).
Proof. unfold manas; intros H; inversion H; destruct s; assumption. Qed.

(** ** [playCard] *)

(** A rejected [playCard] returns the state it was given. *)
Lemma playCard_rejected s i tg ac g g' : playCard s i tg ac g = Some (false, g') -> g' = g.
Proof.
  unfold playCard; cbv zeta.
  destruct (_ || _); [intros H; inversion H; auto|].
  destruct (nth_error _ _) as [card|]; [|intros H; inversion H; auto].
  destruct (Player.mana _ <? _); [intros H; inversion H; auto|].
  destruct (_ && _)%nat; [intros H; inversion H; auto|].
  destruct (streq (Card.type card) "creature"); [intros H; inversion H|].
  destruct (streq (Card.type card) "spell");
    [destruct (handleSpell _ _ _ _); intros H; inversion H | intros H; inversion H].
Qed.

Lemma playCard_accepted_mana s i tg ac g g' :
  playCard s i tg ac g = Some (true, g') ->
  exists card, nth_error (Player.hand (player s g)) (Z.to_nat i) = Some card /\
    Player.mana (player s g') = Player.mana (player s g)
      - match ac with Some c => c | None => getCardCost card s g end.
Proof.
  unfold playCard; cbv zeta.
  destruct (_ || _); [intros H; inversion H|].
  destruct (nth_error _ _) as [card|] eqn:Hn; [|intros H; inversion H].
  destruct (Player.mana _ <? _); [intros H; inversion H|].
  destruct (_ && _)%nat; [intros H; inversion H|].
  set (cost := match ac with Some c => c | None => getCardCost card s g end).
  set (g1 := update_player s _ g).
  assert (H1 : Player.mana (player s g1) = Player.mana (player s g) - cost)
    by (unfold g1; rewrite player_update_same; reflexivity).
  intros H; exists card; split; [reflexivity|]; revert H.
  destruct (streq (Card.type card) "creature").
  - intros H; inversion H; subst. transitivity (Player.mana (player s g1)); [|exact H1]; apply manas_player.
    rewrite manas_addLog, manas_playCreature. reflexivity.
  - destruct (streq (Card.type card) "spell").
    + destruct (handleSpell s card tg _) as [g2|] eqn:Hs; [|intros H; inversion H].
      intros H; inversion H; subst. transitivity (Player.mana (player s g1)); [|exact H1]; apply manas_player.
      apply manas_handleSpell in Hs. unfold push_graveyard.
      rewrite manas_addLog, manas_update by reflexivity. rewrite Hs.
      apply manas_update; reflexivity.
    + intros H; inversion H; subst. transitivity (Player.mana (player s g1)); [|exact H1]; apply manas_player.
      apply manas_addLog.
Qed.

(** ** C4 *)

(** C4 (counterexample): with the caller's cost override 0, playing
    Militia (base cost 3, no cost ability) with 5 mana is accepted and
    deducts 0 mana, not the card's effective cost 3. *)
Lemma playCard_override_ignores_card_cost :
  match playCard P0 0 TNull (Some 0) costScenario with
  | Some (true, g') =>
      getCardCost (Card.create "mi" militia) P0 costScenario = 3 /\
      Player.mana (player P0 costScenario) = 5 /\
      Player.mana (player P0 g') <> 5 - 3
  | _ => False
  end.
Proof. vm_compute. split; [reflexivity | split; [reflexivity | discriminate]]. Qed.

(** C4 (amended): an accepted [playCard] deducts the caller-supplied cost
    [actualCost] when one is given, and otherwise the effective cost
    [getCardCost] of the card (base cost, or base cost minus spellsCount
    floored at 0 for "Costs less per spell"); a rejected call returns the
    state unchanged. *)
Theorem playCard_deducts_cost (s : side) (i : Z) (tg : target) (ac : option Z) (g g' : t) :
  (playCard s i tg ac g = Some (false, g') -> g' = g) /\
  (playCard s i tg ac g = Some (true, g') ->
   exists card, nth_error (Player.hand (player s g)) (Z.to_nat i) = Some card /\
     Player.mana (player s g') = Player.mana (player s g)
       - match ac with
         | Some c => c
         | None => if streq (Card.ability card) "Costs less per spell"
                   then Z.max 0 (Card.cost card - Player.spellsCount (player s g))
                   else Card.cost card
         end).
Proof.
  split; [apply playCard_rejected|].
  intros H. apply playCard_accepted_mana in H. exact H.
Qed.

Lemma playCard_deducts_cost_witness :
  match playCard P0 0 TNull None costScenario with
  | Some (true, g') => Player.mana (player P0 g') = 2
  | _ => False
  end.
Proof.
  destruct (playCard P0 0 TNull None costScenario) as [[[|] g']|] eqn:E;
    [| vm_compute in E; discriminate E | vm_compute in E; discriminate E].
  destruct (proj2 (playCard_deducts_cost P0 0 TNull None costScenario g') E) as [card [Hc Hm]].
  rewrite Hm. vm_compute in Hc. inversion Hc; subst. vm_compute. reflexivity.
Defined.

(** ** C1 *)

(** C1 (divergence): rejections that are not logged, and an illegal
    attack target that is not rejected.  In the short match, after player 1
    has played a Peasant (its mana is now 0), playing another Peasant
    (cost 1) is refused with the state left exactly as it was, so no log
    entry is added; later, on player 1's next turn, a card index past the
    hand, an [endTurn] by player 2 and an attacker index past the field are
    refused the same way; and an attack by player 1's ready Peasant on
    creature index 5 of a one-creature field is accepted with [true]: the
    Peasant is spent for the turn and nothing is logged. *)
Theorem rule_violations_unlogged :
  Player.mana (player P0 duelPlayed) = 0 /\
  map Card.cost (Player.hand (player P0 duelPlayed)) = [1; 1; 1; 1] /\
  playCard P0 0 TNull None duelPlayed = Some (false, duelPlayed) /\
  playCard P0 7 TNull None duelReady = Some (false, duelReady) /\
  endTurn P1 duelReady = (false, duelReady) /\
  processAttack P0 3 (-1) duelReady = (false, duelReady) /\
  length (Player.field (player P1 duelReady)) = 1%nat /\
  map Card.canAttack (Player.field (player P0 duelReady)) = [true] /\
  fst (processAttack P0 0 5 duelReady) = true /\
  map Card.canAttack (Player.field (player P0 (snd (processAttack P0 0 5 duelReady)))) = [false] /\
  gameLog (snd (processAttack P0 0 5 duelReady)) = gameLog duelReady.
Proof. vm_compute. repeat split; reflexivity. Qed.

(** ** [endTurn] *)

Lemma addLog_last m g :
  exists pre e, gameLog (addLog m g) = app pre [e] /\ message e = m /\ turn e = turnNumber g.
Proof.
  unfold addLog; simpl.
  set (e := {| message := m; timestamp := now g; turn := turnNumber g;
               activePlayer := index (currentTurn g) + 1 |}).
  destruct (20 <? length (app (gameLog g) [e]))%nat eqn:Hl.
  - apply Nat.ltb_lt in Hl. rewrite length_app in Hl; simpl in Hl.
    unfold lastn. rewrite skipn_app, length_app. simpl.
    replace (length (gameLog g) + 1 - 20 - length (gameLog g))%nat with O by lia.
    exists (skipn (length (gameLog g) + 1 - 20) (gameLog g)), e. simpl. auto.
  - exists (gameLog g), e. auto.
Qed.

Lemma addLog_fields m g :
  currentTurn (addLog m g) = currentTurn g /\ turnNumber (addLog m g) = turnNumber g /\
  totalTurns (addLog m g) = totalTurns g /\ gameOver (addLog m g) = gameOver g.
Proof. repeat split; reflexivity. Qed.

Lemma burnCount_clear p : burnCount (clearTempImmune p) = burnCount p.
Proof.
  unfold burnCount, clearTempImmune; simpl.
  induction (Player.field p) as [|c cs IH]; simpl; [reflexivity|].
  destruct (streq (Card.ability c) "Burn"); simpl; rewrite IH; reflexivity.
Qed.

Lemma set_health_same p : Player.set_health (Player.health p) p = p.
Proof. destruct p; reflexivity. Qed.

Lemma set_health_mana_field p f m m' :
  Player.set_health (Player.health p) (Player.set_field f (Player.set_mana m (Player.set_maxMana m' p)))
  = Player.set_field f (Player.set_mana m (Player.set_maxMana m' p)).
Proof. destruct p; reflexivity. Qed.

Lemma map_reset_clear cs :
  map Card.resetForTurn (map (Card.set_tempImmune false) cs)
  = map (fun c => Card.resetForTurn (Card.set_tempImmune false c)) cs.
Proof. rewrite map_map; reflexivity. Qed.

Lemma checkGameOver_fields g :
  let g' := snd (checkGameOver g) in
  players g' = players g /\ currentTurn g' = currentTurn g /\ turnNumber g' = turnNumber g /\
  totalTurns g' = totalTurns g /\
  gameOver g' = gameOver g || (Player.health (player P0 g) <=? 0) || (Player.health (player P1 g) <=? 0).
Proof.
  unfold checkGameOver; cbv zeta.
  destruct (gameOver g) eqn:Hg, (Player.health (player P0 g) <=? 0), (Player.health (player P1 g) <=? 0);
    simpl; rewrite ?Hg; repeat split; reflexivity.
Qed.

Lemma drawCard_fields s g :
  let g' := drawCard s g in
  player s g' = Player.set_deck (snd (drawnHandDeck (player s g)))
                  (Player.set_hand (fst (drawnHandDeck (player s g))) (player s g)) /\
  player (other s) g' = player (other s) g /\
  currentTurn g' = currentTurn g /\ turnNumber g' = turnNumber g /\
  totalTurns g' = totalTurns g /\ gameOver g' = gameOver g.
Proof.
  unfold drawCard, drawnHandDeck; cbv zeta.
  destruct (Player.deck (player s g)) as [|c rest] eqn:Ed.
  - rewrite <- Ed. destruct (player s g); repeat split; reflexivity.
  - destruct (length (Player.hand (player s g)) <? 10)%nat.
    + rewrite player_addLog, player_update_same, player_addLog, player_update_other.
      repeat split; reflexivity.
    + rewrite <- Ed. destruct (player s g); repeat split; reflexivity.
Qed.

Lemma turn_begins_tail s g4 m :
  let g' := addLog m (drawCard s g4) in
  player s g' = Player.set_deck (snd (drawnHandDeck (player s g4)))
                  (Player.set_hand (fst (drawnHandDeck (player s g4))) (player s g4)) /\
  player (other s) g' = player (other s) g4 /\
  currentTurn g' = currentTurn g4 /\ turnNumber g' = turnNumber g4 /\ totalTurns g' = totalTurns g4 /\
  gameOver g' = gameOver g4 /\
  exists pre e, gameLog g' = app pre [e] /\ message e = m.
Proof.
  cbv zeta.
  destruct (drawCard_fields s g4) as (A & B & C & D & E & F).
  destruct (addLog_last m (drawCard s g4)) as (pre & e & L & M & _).
  rewrite !player_addLog.
  split; [exact A|]. split; [exact B|]. split; [exact C|]. split; [exact D|].
  split; [exact E|]. split; [exact F|]. exists pre, e; split; [exact L | exact M].
Qed.

(** [startNewTurn(s)] in terms of the state it starts from. *)
Lemma startNewTurn_spec s g :
  let p := player s g in
  let burn := Z.of_nat (burnCount (player (other s) g)) in
  let mm := Z.min 10 (Player.maxMana p + 1) in
  let p5 := Player.set_health (Player.health p - burn)
              (Player.set_field (map Card.resetForTurn (Player.field p))
                 (Player.set_mana mm (Player.set_maxMana mm p))) in
  let g' := startNewTurn s g in
  player s g' = Player.set_deck (snd (drawnHandDeck p5)) (Player.set_hand (fst (drawnHandDeck p5)) p5) /\
  player (other s) g' = player (other s) g /\
  currentTurn g' = currentTurn g /\ turnNumber g' = turnNumber g /\ totalTurns g' = totalTurns g /\
  gameOver g' = gameOver g || ((0 <? burn) && ((Player.health p - burn <=? 0)
                                               || (Player.health (player (other s) g) <=? 0))) /\
  exists pre e, gameLog g' = app pre [e] /\ message e = playerLabel s ++ "'s turn begins!".
Proof.
  cbv zeta. unfold startNewTurn. cbv zeta.
  match goal with |- context [update_player s ?f3 (update_player s ?f2 (update_player s ?f1 g))] =>
    set (g3 := update_player s f3 (update_player s f2 (update_player s f1 g))) end.
  assert (E3s : player s g3 = Player.set_field (map Card.resetForTurn (Player.field (player s g)))
     (Player.set_mana (Z.min 10 (Player.maxMana (player s g) + 1))
        (Player.set_maxMana (Z.min 10 (Player.maxMana (player s g) + 1)) (player s g)))).
  { subst g3. rewrite !player_update_same. reflexivity. }
  assert (E3o : player (other s) g3 = player (other s) g).
  { subst g3. rewrite !player_update_other. reflexivity. }
  assert (E3f : currentTurn g3 = currentTurn g /\ turnNumber g3 = turnNumber g /\
                totalTurns g3 = totalTurns g /\ gameOver g3 = gameOver g).
  { subst g3. destruct s; repeat split; reflexivity. }
  clearbody g3. destruct E3f as (F1 & F2 & F3 & F4).
  rewrite E3o.
  destruct (0 <? Z.of_nat (burnCount (player (other s) g))) eqn:Eb.
  - match goal with |- context [snd (checkGameOver (addLog _ (update_player s ?fh g3)))] =>
      set (gi := update_player s fh g3) end.
    assert (Es : player s gi = Player.set_health
              (Player.health (player s g3) - Z.of_nat (burnCount (player (other s) g))) (player s g3)).
    { subst gi. rewrite player_update_same. reflexivity. }
    assert (Eo : player (other s) gi = player (other s) g3).
    { subst gi. rewrite player_update_other. reflexivity. }
    assert (Ef : currentTurn gi = currentTurn g3 /\ turnNumber gi = turnNumber g3 /\
                 totalTurns gi = totalTurns g3 /\ gameOver gi = gameOver g3).
    { subst gi. destruct s; repeat split; reflexivity. }
    clearbody gi. destruct Ef as (F5 & F6 & F7 & F8).
    match goal with |- context [snd (checkGameOver ?gl)] =>
      destruct (checkGameOver_fields gl) as (G1 & G2 & G3 & G4 & G5);
      set (g4 := snd (checkGameOver gl)) in * end.
    assert (H4 : forall x, player x g4 = player x gi).
    { intros x. subst g4. rewrite player_checkGameOver, player_addLog. reflexivity. }
    destruct (turn_begins_tail s g4 (playerLabel s ++ "'s turn begins!")) as (A & B & C & D & E & F & L).
    rewrite A, B, C, D, E, F, !H4, Es, Eo, E3s, E3o.
    clearbody g4. rewrite G2, G3, G4, G5, !player_addLog.
    destruct (addLog_fields ("Burn deals " ++ Z_to_string (Z.of_nat (burnCount (player (other s) g)))
                              ++ " damage to " ++ playerLabel s ++ "!") gi) as (K1 & K2 & K3 & K4).
    rewrite K1, K2, K3, K4, F5, F6, F7, F8, F1, F2, F3, F4.
    split; [reflexivity|]. split; [reflexivity|]. split; [reflexivity|].
    split; [reflexivity|]. split; [reflexivity|]. split; [|exact L].
    destruct s; simpl other in *; rewrite ?Es, ?Eo, ?E3s, ?E3o; simpl.
    + rewrite <- orb_assoc; reflexivity.
    + rewrite <- orb_assoc; f_equal; apply orb_comm.
  - destruct (turn_begins_tail s g3 (playerLabel s ++ "'s turn begins!")) as (A & B & C & D & E & F & L).
    assert (Hb : Z.of_nat (burnCount (player (other s) g)) = 0).
    { apply Z.ltb_ge in Eb. lia. }
    rewrite A, B, C, D, E, F, E3s, E3o, F1, F2, F3, F4, orb_false_r, Hb, Z.sub_0_r.
    rewrite set_health_mana_field. repeat split; try reflexivity. exact L.
Qed.

Lemma other_other s : other (other s) = s.
Proof. destruct s; reflexivity. Qed.

Lemma health_clearTempImmune p : Player.health (clearTempImmune p) = Player.health p.
Proof. reflexivity. Qed.

(** The state [endTurn] hands to [startNewTurn], and its fields. *)
Lemma endTurn_accepted s g :
  currentTurn g = s ->
  let g1 := set_totalTurns (totalTurns g + 1)
              (set_currentTurn (other s)
                 (update_player P1 clearTempImmune (update_player P0 clearTempImmune g))) in
  let gE := if side_eqb (other s) P0 then set_turnNumber (turnNumber g + 1) g1 else g1 in
  endTurn s g = (true, startNewTurn (other s) gE) /\
  (forall x, player x gE = clearTempImmune (player x g)) /\
  currentTurn gE = other s /\ totalTurns gE = totalTurns g + 1 /\
  turnNumber gE = (if side_eqb (other s) P0 then turnNumber g + 1 else turnNumber g) /\
  gameOver gE = gameOver g.
Proof.
  intros <-. cbv zeta. unfold endTurn.
  destruct (currentTurn g) eqn:E; simpl; rewrite ?E;
    (split; [reflexivity|]); (split; [intros []; reflexivity|]); repeat split.
Qed.

(** C9: [endTurn(playerIndex)] by a player other than [currentTurn] returns
    [false] and changes nothing. Otherwise it returns [true] and:
    - the outgoing player only has [tempImmune] cleared on its creatures;
    - [currentTurn] flips and [totalTurns] grows by 1;
    - [turnNumber] grows by 1 exactly when play returns to player 0;
    - the incoming player's [maxMana] grows by 1, capped at 10;
    - its [mana] is refilled to the new [maxMana];
    - each of its creatures is [resetForTurn] (after the [tempImmune] clear);
    - it takes 1 damage per Burn creature of the outgoing player;
    - game over is checked when that damage is positive;
    - one [drawCard] moves the top of its deck to its hand, a no-op on an
      empty deck or a hand of 10 cards;
    - a "Player N's turn begins!" entry is appended to the log. *)
Theorem endTurn_spec s g :
  (currentTurn g <> s -> endTurn s g = (false, g)) /\
  (currentTurn g = s ->
   let s' := other s in
   let burn := Z.of_nat (burnCount (player s g)) in
   let r := endTurn s g in
   let g' := snd r in
   fst r = true /\
   currentTurn g' = s' /\ totalTurns g' = totalTurns g + 1 /\
   turnNumber g' = (if side_eqb s' P0 then turnNumber g + 1 else turnNumber g) /\
   player s g' = clearTempImmune (player s g) /\
   Player.maxMana (player s' g') = Z.min 10 (Player.maxMana (player s' g) + 1) /\
   Player.mana (player s' g') = Player.maxMana (player s' g') /\
   Player.field (player s' g')
     = map (fun c => Card.resetForTurn (Card.set_tempImmune false c)) (Player.field (player s' g)) /\
   Player.health (player s' g') = Player.health (player s' g) - burn /\
   gameOver g' = gameOver g || ((0 <? burn) && ((Player.health (player s' g) - burn <=? 0)
                                                || (Player.health (player s g) <=? 0))) /\
   (Player.hand (player s' g'), Player.deck (player s' g')) = drawnHandDeck (player s' g) /\
   exists pre e, gameLog g' = app pre [e] /\ message e = playerLabel s' ++ "'s turn begins!").
Proof.
  split.
  - intros Hne. unfold endTurn.
    destruct (side_eqb (currentTurn g) s) eqn:E; [|reflexivity].
    exfalso. apply Hne. destruct (currentTurn g), s; try reflexivity; discriminate E.
  - intros Hs. destruct (endTurn_accepted s g Hs) as (Hr & Px & Ct & Tt & Tn & Go).
    revert Hr Px Ct Tt Tn Go. cbv zeta.
    match goal with |- _ = (true, startNewTurn _ ?ge) -> _ => generalize ge end.
    intros gE Hr Px Ct Tt Tn Go. rewrite Hr. simpl fst. simpl snd.
    destruct (startNewTurn_spec (other s) gE) as (A & B & C & D & E & F & L).
    revert A B C D E F L. cbv zeta. rewrite !other_other, !Px, burnCount_clear,
      !health_clearTempImmune, Ct, Tt, Tn, Go. intros A B C D E F L.
    assert (Hd : drawnHandDeck
                   (Player.set_health (Player.health (player (other s) g) - Z.of_nat (burnCount (player s g)))
                      (Player.set_field (map Card.resetForTurn (Player.field (clearTempImmune (player (other s) g))))
                         (Player.set_mana (Z.min 10 (Player.maxMana (clearTempImmune (player (other s) g)) + 1))
                            (Player.set_maxMana (Z.min 10 (Player.maxMana (clearTempImmune (player (other s) g)) + 1))
                               (clearTempImmune (player (other s) g))))))
                 = drawnHandDeck (player (other s) g)) by reflexivity.
    rewrite Hd in A.
    split; [reflexivity|]. split; [exact C|]. split; [exact E|]. split; [exact D|].
    split; [exact B|]. split; [rewrite A; reflexivity|]. split; [rewrite A; reflexivity|].
    split; [rewrite A; exact (map_reset_clear _)|]. split; [rewrite A; reflexivity|].
    split; [exact F|]. split; [rewrite A; destruct (drawnHandDeck _); reflexivity|].
    exact L.
Qed.

Lemma endTurn_spec_witness :
  endTurn P1 tauntScenario = (false, tauntScenario) /\
  currentTurn tauntScenario = P0 /\ fst (endTurn P0 tauntScenario) = true /\
  currentTurn (snd (endTurn P0 tauntScenario)) = P1 /\
  Player.maxMana (player P1 (snd (endTurn P0 tauntScenario))) = Z.min 10 (Player.maxMana (player P1 tauntScenario) + 1).
Proof.
  assert (Hc : currentTurn tauntScenario = P0) by (vm_compute; reflexivity).
  destruct (endTurn_spec P1 tauntScenario) as [Hw _].
  destruct (endTurn_spec P0 tauntScenario) as [_ Ha].
  destruct (Ha Hc) as (H1 & H2 & _ & _ & _ & H6 & _).
  split; [apply Hw; rewrite Hc; discriminate|].
  split; [exact Hc|]. split; [exact H1|]. split; [exact H2|]. exact H6.
Defined.

(** ** The invariant of reachable matches *)

Lemma Pres_refl g : Pres g g.
Proof. unfold Pres; auto. Qed.

Lemma Pres_trans a b c : Pres a b -> Pres b c -> Pres a c.
Proof.
  intros (I1 & W1 & C1 & T1 & N1) (I2 & W2 & C2 & T2 & N2).
  split; [auto|]. split; [|split; [congruence|split; congruence]].
  intros H. destruct (W1 H) as [H1 H2]. destruct (W2 H1) as [H3 H4]. split; congruence.
Qed.

Lemma Pres_same g g' :
  players g' = players g -> gameLog g' = gameLog g -> gameOver g' = gameOver g ->
  winner g' = winner g -> currentTurn g' = currentTurn g -> turnNumber g' = turnNumber g ->
  totalTurns g' = totalTurns g -> Pres g g'.
Proof.
  intros Hp Hl Ho Hw Hc Ht Hn. split; [|split; [intros H; split; congruence|auto]].
  intros [Ip Il Iw It]. constructor.
  - intros x. destruct x; unfold player; rewrite Hp; apply (Ip P0) || apply (Ip P1).
  - rewrite Hl; exact Il.
  - rewrite Ho, Hw; exact Iw.
  - rewrite Hn, Ht, Hc; exact It.
Qed.

Lemma length_lastn {A} n (l : list A) : length (lastn n l) = Nat.min n (length l).
Proof. unfold lastn. rewrite length_skipn. lia. Qed.

Lemma Pres_addLog m g : Pres g (addLog m g).
Proof.
  split; [|split; [auto|repeat split]].
  intros [Ip Il Iw It]. constructor; try assumption.
  unfold addLog; simpl. destruct (20 <? _)%nat eqn:E; simpl.
  - rewrite length_lastn. lia.
  - apply Nat.ltb_ge in E. exact E.
Qed.

Lemma Pres_update s f g :
  (bounded (player s g) -> bounded (f (player s g))) -> Pres g (update_player s f g).
Proof.
  intros Hf. split; [|split; [destruct s; auto|destruct s; repeat split]].
  intros [Ip Il Iw It]. constructor; try (destruct s; assumption).
  intros x. rewrite player_update. destruct (side_eqb s x) eqn:E; [|apply Ip].
  destruct s, x; try discriminate; apply Hf, Ip.
Qed.

Lemma Pres_freshId g : Pres g (snd (freshId g)).
Proof. apply Pres_same; reflexivity. Qed.

Lemma Pres_win w g : gameOver g = false -> Pres g (set_winner (Some w) (set_gameOver true g)).
Proof.
  intros Hg. split; [|split; [congruence|repeat split]].
  intros [Ip Il Iw It]. constructor; try assumption.
  simpl. split; discriminate.
Qed.

Lemma Pres_checkGameOver g : Pres g (snd (checkGameOver g)).
Proof.
  unfold checkGameOver.
  destruct (gameOver g) eqn:Eg; cbn [negb]; [rewrite !andb_false_r; apply Pres_refl|].
  rewrite !andb_true_r.
  destruct (Player.health (player P0 g) <=? 0);
    [eapply Pres_trans; [apply Pres_win; exact Eg|apply Pres_addLog]|].
  destruct (Player.health (player P1 g) <=? 0);
    [eapply Pres_trans; [apply Pres_win; exact Eg|apply Pres_addLog]|apply Pres_refl].
Qed.

Ltac bnd :=
  match goal with B : bounded _ |- bounded _ =>
    destruct B; constructor; simpl in *; try assumption; try lia end.

Lemma Pres_drawCard s g : Pres g (drawCard s g).
Proof.
  unfold drawCard. destruct (Player.deck (player s g)) as [|c rest] eqn:Ed; [apply Pres_refl|].
  destruct (length (Player.hand (player s g)) <? 10)%nat eqn:Eh; [|apply Pres_refl].
  eapply Pres_trans; [apply Pres_update|apply Pres_addLog].
  intros B. apply Nat.ltb_lt in Eh.
  pose proof (b_deckOK _ B) as Hd. rewrite Ed in Hd. inversion Hd; subst.
  bnd.
  - rewrite length_app; simpl; lia.
  - apply Forall_app; auto.
Qed.

Lemma Pres_drawN n s g : Pres g (drawN n s g).
Proof.
  revert g; induction n as [|n IH]; intros g; simpl; [apply Pres_refl|].
  eapply Pres_trans; [apply Pres_drawCard|apply IH].
Qed.

Lemma Pres_updateSpellPower g : Pres g (updateSpellPower g).
Proof.
  unfold updateSpellPower, spellPowerOf.
  eapply Pres_trans; (apply Pres_update; intros B; bnd).
Qed.

Lemma create_attack f tp : Card.attack (Card.create f tp) = Card.t_attack tp.
Proof.
  unfold Card.create; simpl.
  repeat (match goal with |- context [streq ?a ?b] => destruct (streq a b) end; simpl).
  all: reflexivity.
Qed.

Lemma field_drawCard x s g : Player.field (player x (drawCard s g)) = Player.field (player x g).
Proof.
  unfold drawCard. destruct (Player.deck _); [reflexivity|].
  destruct (_ <? 10)%nat; [|reflexivity].
  rewrite player_addLog, player_update. destruct (side_eqb s x); reflexivity.
Qed.

Lemma field_update x s f g :
  (forall p, Player.field (f p) = Player.field p) ->
  Player.field (player x (update_player s f g)) = Player.field (player x g).
Proof. intros Hf. rewrite player_update. destruct (side_eqb s x); auto. Qed.

Lemma Pres_push_graveyard s c g : Pres g (push_graveyard s c g).
Proof. apply Pres_update. intros B; bnd. Qed.

Ltac field_chain :=
  repeat first
    [ rewrite player_addLog
    | rewrite field_drawCard
    | rewrite field_update by reflexivity ];
  try reflexivity.

Lemma sweep_pres s cs g : Forall cardOK cs ->
  Pres g (snd (sweep s cs g)) /\
  fst (sweep s cs g) = filter (fun c => negb (Card.health c <=? 0)) cs /\
  (forall x, Player.field (player x (snd (sweep s cs g))) = Player.field (player x g)).
Proof.
  revert g; induction cs as [|c cs IH]; intros g Hok; [split; [apply Pres_refl|auto]|].
  inversion Hok as [|? ? Hc Hcs]; subst. cbn [sweep filter].
  destruct (Card.health c <=? 0) eqn:Eh; cbn [negb].
  - match goal with |- context [sweep s cs ?g4] =>
      assert (P4 : Pres g g4 /\ forall x, Player.field (player x g4) = Player.field (player x g)) end.
    { assert (P1 : Pres g (addLog (Card.name c ++ " was destroyed!") g)) by apply Pres_addLog.
      set (g1 := addLog (Card.name c ++ " was destroyed!") g) in *.
      assert (F1 : forall x, Player.field (player x g1) = Player.field (player x g))
        by (intros x; subst g1; field_chain).
      clearbody g1.
      match goal with |- context [push_graveyard s c (if _ then _ else ?g2)] =>
        assert (P2 : Pres g g2 /\ forall x, Player.field (player x g2) = Player.field (player x g)) end.
      { destruct (streq (Card.ability c) "Deathrattle: Draw"); [|auto].
        split.
        - eapply Pres_trans; [exact P1|]. eapply Pres_trans; [apply Pres_drawCard|apply Pres_addLog].
        - intros x. field_chain. apply F1. }
      destruct P2 as [P2 F2].
      match goal with |- context [push_graveyard s c (if _ then _ else ?g2)] =>
        set (g2' := g2) in * end.
      clearbody g2'.
      destruct (streq (Card.ability c) "Resurrect"); cbn [freshId].
      + destruct (length (Player.hand (player s (set_nextId _ g2'))) <? 10)%nat eqn:Ehand.
        * split.
          -- eapply Pres_trans; [exact P2|]. eapply Pres_trans; [apply Pres_freshId|].
             eapply Pres_trans; [|apply Pres_push_graveyard].
             eapply Pres_trans; [apply Pres_update|apply Pres_addLog].
             intros B. apply Nat.ltb_lt in Ehand. bnd.
             ++ rewrite length_app; simpl; lia.
             ++ apply Forall_app; split; auto. constructor; [|constructor].
                unfold cardOK. rewrite create_attack. exact Hc.
          -- intros x. unfold push_graveyard. field_chain. apply F2.
        * split.
          -- eapply Pres_trans; [exact P2|]. eapply Pres_trans; [apply Pres_freshId|apply Pres_push_graveyard].
          -- intros x. unfold push_graveyard. field_chain. apply F2.
      + split.
        * eapply Pres_trans; [exact P2|apply Pres_push_graveyard].
        * intros x. unfold push_graveyard. field_chain. apply F2. }
    destruct P4 as [P4 F4]. match goal with |- context [sweep s cs ?g4] =>
      destruct (IH g4 Hcs) as (P5 & K5 & F5) end.
    split; [eapply Pres_trans; eassumption|]. split; [exact K5|].
    intros x; rewrite F5; apply F4.
  - destruct (IH g Hcs) as (P5 & K5 & F5).
    destruct (sweep s cs g) as [kept g']. simpl in *. subst kept. auto.
Qed.

Lemma length_filter_le {A} (f : A -> bool) l : (length (filter f l) <= length l)%nat.
Proof. induction l as [|a l IH]; simpl; [lia|]. destruct (f a); simpl; lia. Qed.

Lemma Forall_filter' {A} (P : A -> Prop) f l : Forall P l -> Forall P (filter f l).
Proof.
  intros H. apply Forall_forall. intros x Hx. apply filter_In in Hx as [Hx _].
  rewrite Forall_forall in H. auto.
Qed.

Lemma Pres_inv_trans a b c : inv a -> Pres a b -> (inv b -> Pres b c) -> Pres a c.
Proof. intros Ia Pab Pbc. apply (Pres_trans a b c Pab). apply Pbc, (proj1 Pab), Ia. Qed.

Lemma Pres_sweepSide s g : inv g -> Pres g (sweepSide s g).
Proof.
  intros I. unfold sweepSide.
  pose proof (i_players _ I s) as B0.
  destruct (sweep_pres s _ g (b_fieldOK _ B0)) as (P & K & F).
  destruct (sweep s (Player.field (player s g)) g) as [kept g'] eqn:E. simpl in *.
  eapply Pres_trans; [exact P|]. apply Pres_update. intros B; bnd; subst kept.
  - pose proof (length_filter_le (fun c => negb (Card.health c <=? 0)) (Player.field (player s g))).
    pose proof (b_field _ B0). lia.
  - apply Forall_filter'. apply (b_fieldOK _ B0).
Qed.

Lemma Pres_checkCreatureDeaths g : inv g -> Pres g (checkCreatureDeaths g).
Proof.
  intros I. unfold checkCreatureDeaths.
  eapply Pres_inv_trans; [exact I|apply Pres_sweepSide; exact I|]. intros I1.
  eapply Pres_inv_trans; [exact I1|apply Pres_sweepSide; exact I1|]. intros _.
  apply Pres_updateSpellPower.
Qed.

Lemma takeDamage_attack d c : (Card.attack c <= Card.attack (snd (Card.takeDamage d c)))%Z.
Proof.
  unfold Card.takeDamage.
  destruct (d <=? 0); [simpl; lia|]. destruct (_ || _); [simpl; lia|].
  destruct (Card.divineShield c); [simpl; lia|]. cbv zeta.
  destruct (_ && _ && _ && _); simpl; lia.
Qed.

Lemma cardOK_takeDamage d c : cardOK c -> cardOK (snd (Card.takeDamage d c)).
Proof. unfold cardOK; pose proof (takeDamage_attack d c); lia. Qed.

Lemma length_set_nth {A} n (x : A) l : length (set_nth n x l) = length l.
Proof. revert n; induction l as [|a l IH]; intros [|n]; simpl; auto. Qed.

Lemma Forall_set_nth {A} (P : A -> Prop) n x l : Forall P l -> P x -> Forall P (set_nth n x l).
Proof.
  intros Hl Hx. revert n; induction Hl as [|a l Ha Hl IH]; intros [|n]; simpl; constructor; auto.
Qed.

Lemma length_remove_nth {A} n (l : list A) : (length (remove_nth n l) <= length l)%nat.
Proof. revert n; induction l as [|a l IH]; intros [|n]; simpl; try lia. specialize (IH n). lia. Qed.

Lemma Forall_remove_nth {A} (P : A -> Prop) n l : Forall P l -> Forall P (remove_nth n l).
Proof. intros Hl. revert n; induction Hl as [|a l Ha Hl IH]; intros [|n]; simpl; auto. Qed.

Lemma aoe_pres cs g :
  Pres g (snd (aoe cs g)) /\ players (snd (aoe cs g)) = players g /\
  length (fst (aoe cs g)) = length cs /\ (Forall cardOK cs -> Forall cardOK (fst (aoe cs g))).
Proof.
  revert g; induction cs as [|c cs IH]; intros g; simpl; [split; [apply Pres_refl|auto]|].
  destruct (Card.takeDamage 2 c) as [d c'] eqn:Ed.
  match goal with |- context [aoe cs ?g1] =>
    assert (P1 : Pres g g1 /\ players g1 = players g)
      by (destruct (0 <? d); [split; [apply Pres_addLog|reflexivity]|split; [apply Pres_refl|reflexivity]]);
    destruct (IH g1) as (P2 & Q2 & L2 & F2);
    destruct (aoe cs g1) as [rest g2] end.
  simpl in *. destruct P1 as [P1 Q1].
  split; [eapply Pres_trans; eassumption|]. split; [congruence|]. split; [congruence|].
  intros Hf. inversion Hf; subst. constructor; auto.
  replace c' with (snd (Card.takeDamage 2 c)) by (rewrite Ed; reflexivity).
  apply cardOK_takeDamage; assumption.
Qed.

Lemma player_set_nextId x n g : player x (set_nextId n g) = player x g.
Proof. destruct x; reflexivity. Qed.

Lemma player_players x g g' : players g' = players g -> player x g' = player x g.
Proof. intros H; destruct x; unfold player; rewrite H; reflexivity. Qed.

Lemma summon_pres n s g : Pres g (summon n s g).
Proof.
  revert g; induction n as [|n IH]; intros g; simpl; [apply Pres_refl|].
  destruct (length (Player.field (player s g)) <? 7)%nat eqn:E; [|apply Pres_refl].
  eapply Pres_trans; [|apply IH].
  eapply Pres_trans; [apply (Pres_freshId g)|]. apply Pres_update. intros B. apply Nat.ltb_lt in E.
  rewrite player_set_nextId in *. bnd.
  - rewrite length_app; simpl; lia.
  - apply Forall_app; split; auto. constructor; [|constructor].
    unfold cardOK, Card.set_tapped. cbn [Card.attack]. rewrite create_attack. simpl. lia.
Qed.

Lemma Pres_health_down s k g : 0 <= k -> Pres g (update_player s (fun p => Player.set_health (Player.health p - k) p) g).
Proof. intros Hk. apply Pres_update. intros B; bnd. Qed.

Lemma Pres_heal s k g :
  Pres g (update_player s (fun p => Player.set_health (Z.min (Player.maxHealth p) (Player.health p + k)) p) g).
Proof. apply Pres_update. intros B; bnd. Qed.

Lemma Pres_handleEnterPlayAbilities s card g : inv g -> Pres g (handleEnterPlayAbilities s card g).
Proof.
  intros I. unfold handleEnterPlayAbilities; cbv zeta.
  destruct (_ || _ || _); [apply Pres_drawN|].
  destruct (streq _ "Battlecry: Damage").
  { eapply Pres_trans; [|apply Pres_checkGameOver].
    eapply Pres_trans; [|apply Pres_addLog]. apply Pres_health_down; lia. }
  destruct (streq _ "AOE damage").
  { destruct (aoe_pres (Player.field (player (other s) g)) g) as (P & Q & L & F).
    destruct (aoe (Player.field (player (other s) g)) g) as [fld g1]. simpl in *.
    eapply Pres_inv_trans; [exact I|exact P|]. intros I1.
    eapply Pres_inv_trans; [exact I1| |intros I2; apply Pres_checkCreatureDeaths; exact I2].
    apply Pres_update. rewrite (player_players _ _ _ Q). intros B.
    pose proof (b_field _ B) as Bf. pose proof (b_fieldOK _ B) as Bo.
    bnd; try (rewrite L; exact Bf); try (apply F; exact Bo). }
  destruct (streq _ "Summon skeletons").
  { eapply Pres_trans; [apply summon_pres|apply Pres_addLog]. }
  destruct (streq _ "Spell Power +1"); [apply Pres_updateSpellPower|apply Pres_refl].
Qed.

Lemma Pres_playCreature s card g :
  inv g -> (length (Player.field (player s g)) < 7)%nat -> cardOK card ->
  Pres g (playCreature s card g).
Proof.
  intros I Hl Hc. unfold playCreature; cbv zeta.
  match goal with |- context [update_player s (fun p => Player.set_field (app (Player.field p) [?c]) p) g] =>
    assert (Hc' : cardOK c)
      by (unfold cardOK in *; repeat (match goal with |- context [streq ?a ?b] => destruct (streq a b) end);
          exact Hc);
    generalize dependent c end.
  intros c Hc'.
  apply (Pres_inv_trans g (update_player s (fun p => Player.set_field (app (Player.field p) [c]) p) g));
    [exact I| |intros I1].
  - apply Pres_update. intros B. bnd; rewrite ?length_app; simpl; try lia.
    apply Forall_app; split; auto.
  - eapply Pres_inv_trans; [exact I1|apply Pres_handleEnterPlayAbilities; exact I1|].
    intros _. apply Pres_updateSpellPower.
Qed.

Lemma parse_digits_nonneg s acc : 0 <= acc -> 0 <= parse_digits s acc.
Proof. revert acc; induction s as [|a s IH]; intros acc H; cbn [parse_digits]; [exact H|]. apply IH. lia. Qed.

Lemma nth_error_Forall {A} (P : A -> Prop) l n x : Forall P l -> nth_error l n = Some x -> P x.
Proof. intros Hl Hn. apply nth_error_In in Hn. rewrite Forall_forall in Hl. auto. Qed.

Lemma Pres_handleSpell s card tg g g' : inv g -> handleSpell s card tg g = Some g' -> Pres g g'.
Proof.
  intros I H. unfold handleSpell in H; cbv zeta in H.
  revert H; generalize (nullDefault tg); clear tg; intros tg H.
  destruct (includes (Card.ability card) "Deal").
  { destruct (match_digits (Card.ability card)) as [d|]; [|discriminate].
    assert (Hd : 0 <= parseInt d + Player.spellPower (player s g)).
    { pose proof (b_spellPower _ (i_players _ I s)). pose proof (parse_digits_nonneg d 0 ltac:(lia)). unfold parseInt. lia. }
    destruct (targetsOpponent tg).
    { injection H as <-. eapply Pres_trans; [|apply Pres_checkGameOver].
      eapply Pres_trans; [|apply Pres_addLog]. apply Pres_health_down; exact Hd. }
    destruct tg; try (injection H as <-; apply Pres_refl);
      [|destruct (in_range _ _); [discriminate|injection H as <-; apply Pres_refl]].
    destruct (in_range n _); [|injection H as <-; apply Pres_refl].
    destruct (nth_error (Player.field (player (other s) g)) (Z.to_nat n)) as [tc|] eqn:En;
      [|injection H as <-; apply Pres_refl].
    pose proof (nth_error_Forall _ _ _ _ (b_fieldOK _ (i_players _ I (other s))) En) as Htc.
    pose proof (cardOK_takeDamage (parseInt d + Player.spellPower (player s g)) tc Htc) as Htc'.
    destruct (Card.takeDamage _ tc) as [ad tc'] eqn:Et. simpl in Htc'.
    match goal with H : context [if includes _ "Freeze" then _ else _] |- _ =>
      destruct (includes (Card.ability card) "Freeze") end;
      injection H as <-;
      (eapply Pres_inv_trans; [exact I| |intros I1; apply Pres_checkCreatureDeaths; exact I1]);
      (eapply Pres_trans; [|apply Pres_update; rewrite ?player_addLog; intros B; bnd;
                             [rewrite length_set_nth; assumption|apply Forall_set_nth; assumption]]);
      repeat (eapply Pres_trans; [|apply Pres_addLog]); apply Pres_refl. }
  destruct (includes (Card.ability card) "Restore").
  { destruct (match_digits (Card.ability card)) as [d|]; [|discriminate].
    injection H as <-. eapply Pres_trans; [apply Pres_heal|apply Pres_addLog]. }
  destruct (_ || _).
  { injection H as <-. eapply Pres_trans; [|apply Pres_addLog].
    apply Pres_update. intros B. bnd.
    - rewrite length_map. assumption.
    - rewrite Forall_map. eapply Forall_impl; [|eassumption]. intros c Hc. unfold cardOK in *.
      unfold buffCreature; simpl. destruct (includes _ "+2/+2"); lia. }
  destruct (includes (Card.ability card) "Draw").
  { injection H as <-. apply Pres_drawN. }
  injection H as <-. apply Pres_refl.
Qed.

Lemma Pres_playCard s i tg ac g b g' : inv g -> playCard s i tg ac g = Some (b, g') -> Pres g g'.
Proof.
  intros I H. unfold playCard in H; cbv zeta in H.
  destruct (_ || _); [injection H as _ <-; apply Pres_refl|].
  destruct (nth_error (Player.hand (player s g)) (Z.to_nat i)) as [card|] eqn:En;
    [|injection H as _ <-; apply Pres_refl].
  pose proof (nth_error_Forall _ _ _ _ (b_handOK _ (i_players _ I s)) En) as Hc.
  set (cost := match ac with Some c => c | None => getCardCost card s g end) in H.
  destruct (Player.mana (player s g) <? cost) eqn:Em; [injection H as _ <-; apply Pres_refl|].
  destruct (streq (Card.type card) "creature" && (7 <=? length (Player.field (player s g)))%nat) eqn:Ef;
    [injection H as _ <-; apply Pres_refl|].
  set (g1 := update_player s _ g) in H.
  assert (P1 : Pres g g1).
  { apply Pres_update. intros B. apply Z.ltb_ge in Em. bnd.
    - pose proof (length_remove_nth (Z.to_nat i) (Player.hand (player s g))). lia.
    - apply Forall_remove_nth; assumption. }
  assert (I1 : inv g1) by (apply P1, I).
  assert (F1 : Player.field (player s g1) = Player.field (player s g))
    by (subst g1; rewrite player_update_same; reflexivity).
  destruct (streq (Card.type card) "creature") eqn:Ec.
  - injection H as _ <-. eapply Pres_trans; [exact P1|]. eapply Pres_trans; [|apply Pres_addLog].
    apply Pres_playCreature; [exact I1| |exact Hc].
    rewrite F1. rewrite andb_true_l in Ef. apply Nat.leb_gt in Ef. exact Ef.
  - destruct (streq (Card.type card) "spell").
    + match goal with H : context [handleSpell s card tg ?g2] |- _ =>
        destruct (handleSpell s card tg g2) as [g3|] eqn:Eh; [|discriminate];
        assert (P2 : Pres g1 g2) by (apply Pres_update; intros B; bnd) end.
      injection H as _ <-. eapply Pres_trans; [exact P1|]. eapply Pres_trans; [exact P2|].
      eapply Pres_trans; [|apply Pres_addLog]. eapply Pres_trans; [|apply Pres_push_graveyard].
      eapply Pres_handleSpell; [|exact Eh]. apply P2, I1.
    + injection H as _ <-. eapply Pres_trans; [exact P1|apply Pres_addLog].
Qed.

Lemma Pres_set_field_at s i c g :
  cardOK c -> Pres g (set_field_at s i c g).
Proof.
  intros Hc. apply Pres_update. intros B. bnd; rewrite ?length_set_nth; try assumption.
  apply Forall_set_nth; assumption.
Qed.

Ltac pres_chain :=
  repeat first
    [ assumption
    | apply Pres_refl
    | progress unfold enrageLog
    | eapply Pres_trans; [|apply Pres_addLog]
    | eapply Pres_trans; [|apply Pres_checkGameOver]
    | eapply Pres_trans; [|apply Pres_heal]
    | eapply Pres_trans; [|apply Pres_health_down; lia] ].

Ltac solve_q :=
  repeat match goal with
  | |- context [Card.takeDamage ?d ?c] =>
      let Hk := fresh "Hk" in
      assert (Hk : cardOK (snd (Card.takeDamage d c))) by (apply cardOK_takeDamage; assumption);
      destruct (Card.takeDamage d c); simpl in Hk
  | |- context [if ?b then _ else _] => destruct b
  end;
  simpl; unfold cardOK in *; repeat match goal with |- _ /\ _ => split end; simpl; try lia; pres_chain.

Ltac tup_cnt :=
  match goal with |- Pres ?g0 (match ?E with _ => _ end) =>
    let Q := fresh "Q" in
    assert (Q : cardOK (fst (fst E)) /\ Pres g0 (snd E)) by solve_q;
    destruct E as [[? ?] ?]; simpl in Q; destruct Q as [? ?]
  end.

Ltac tup_cct :=
  match goal with |- Pres ?g0 (match ?E with _ => _ end) =>
    let Q := fresh "Q" in
    assert (Q : cardOK (fst (fst E)) /\ cardOK (snd (fst E)) /\ Pres g0 (snd E)) by solve_q;
    destruct E as [[? ?] ?]; simpl in Q; destruct Q as (? & ? & ?)
  end.

Ltac tup_ct :=
  match goal with |- Pres ?g0 (match ?E with _ => _ end) =>
    let Q := fresh "Q" in
    assert (Q : cardOK (fst E) /\ Pres g0 (snd E)) by solve_q;
    destruct E as [? ?]; simpl in Q; destruct Q as [? ?]
  end.

Lemma Pres_creatureCombat s ai ti g : inv g -> Pres g (creatureCombat s ai ti g).
Proof.
  intros I. unfold creatureCombat.
  destruct (nth_error (Player.field (player s g)) ai) as [attacker|] eqn:Ea; [|apply Pres_refl].
  destruct (nth_error (Player.field (player (other s) g)) ti) as [target|] eqn:Et; [|apply Pres_refl].
  pose proof (nth_error_Forall _ _ _ _ (b_fieldOK _ (i_players _ I s)) Ea) as Ca.
  pose proof (nth_error_Forall _ _ _ _ (b_fieldOK _ (i_players _ I (other s))) Et) as Ct.
  destruct (_ || _); [apply Pres_addLog|].
  cbv zeta.
  pose proof (Pres_refl g) as P0.
  tup_cnt. tup_cnt. tup_cct. tup_ct. tup_ct. tup_ct.
  eapply Pres_inv_trans; [exact I| |intros I'; apply Pres_checkCreatureDeaths; exact I'].
  eapply Pres_trans; [|apply Pres_set_field_at; assumption].
  eapply Pres_trans; [|apply Pres_set_field_at; assumption].
  eapply Pres_trans; [|apply Pres_addLog].
  solve_q.
Qed.

Lemma markAttacked_attack c : Card.attack (Card.markAttacked c) = Card.attack c.
Proof.
  unfold Card.markAttacked.
  repeat (match goal with |- context [if ?b then _ else _] => destruct b end); reflexivity.
Qed.

Lemma Pres_processAttack s ai ti g : inv g -> Pres g (snd (processAttack s ai ti g)).
Proof.
  intros I. unfold processAttack.
  destruct (_ || _); [apply Pres_refl|].
  destruct (nth_error _ _) as [attacker|] eqn:Ea; [|apply Pres_refl].
  pose proof (nth_error_Forall _ _ _ _ (b_fieldOK _ (i_players _ I s)) Ea) as Ca.
  destruct (negb _); [apply Pres_addLog|].
  destruct (_ && _); [apply Pres_addLog|].
  destruct (_ && _); [apply Pres_addLog|].
  destruct (targetRejection _ _ _); [apply Pres_addLog|].
  cbv zeta. pose proof (Pres_refl g) as P0.
  match goal with |- Pres ?g0 (snd (match ?E with _ => _ end)) =>
    let Q := fresh "Q" in
    assert (Q : cardOK (fst E) /\ Pres g0 (snd E)) by solve_q;
    destruct E as [a1 g1]; simpl in Q; destruct Q as [C1 P1]
  end.
  assert (C2 : cardOK (Card.markAttacked a1)) by (unfold cardOK; rewrite markAttacked_attack; exact C1).
  assert (P2 : Pres g (set_field_at s (Z.to_nat ai) (Card.markAttacked a1) g1))
    by (eapply Pres_trans; [exact P1|apply Pres_set_field_at; exact C2]).
  destruct (ti =? -1); simpl snd.
  - eapply Pres_trans; [|apply Pres_checkGameOver].
    unfold cardOK in C2.
    destruct (_ || _); pres_chain.
  - destruct (in_range _ _); [|exact P2].
    eapply Pres_inv_trans; [exact I|exact P2|]. intros I2. apply Pres_creatureCombat; exact I2.
Qed.

Lemma resetForTurn_attack c : Card.attack (Card.resetForTurn c) = Card.attack c.
Proof.
  unfold Card.resetForTurn.
  repeat (match goal with |- context [if ?b then _ else _] => destruct b end); reflexivity.
Qed.

Lemma Forall_cardOK_map f l :
  (forall c, Card.attack (f c) = Card.attack c) -> Forall cardOK l -> Forall cardOK (map f l).
Proof.
  intros Hf Hl. apply Forall_map. eapply Forall_impl; [|exact Hl].
  intros c. unfold cardOK. rewrite Hf. auto.
Qed.

Lemma Pres_startNewTurn s g : inv g -> Pres g (startNewTurn s g).
Proof.
  intros I. unfold startNewTurn.
  eapply Pres_trans; [|apply Pres_addLog]. eapply Pres_trans; [|apply Pres_drawCard].
  match goal with |- Pres _ (if _ then _ else ?G) =>
    assert (P3 : Pres g G) end.
  { eapply Pres_trans; [|apply Pres_update; intros B; bnd; rewrite ?length_map; try assumption;
                         apply Forall_cardOK_map; [apply resetForTurn_attack|assumption]].
    eapply Pres_trans; [|apply Pres_update; intros B; bnd].
    apply Pres_update; intros B; bnd. }
  destruct (0 <? _); [|exact P3].
  eapply Pres_trans; [|apply Pres_checkGameOver]. eapply Pres_trans; [|apply Pres_addLog].
  eapply Pres_trans; [exact P3|apply Pres_health_down; lia].
Qed.

Lemma Pres_clearTempImmune s g : Pres g (update_player s clearTempImmune g).
Proof.
  apply Pres_update; intros B; bnd; unfold clearTempImmune; simpl; rewrite ?length_map; try assumption.
  apply Forall_cardOK_map; [reflexivity|assumption].
Qed.

Lemma endTurn_inv s g :
  inv g -> inv (snd (endTurn s g)) /\
  (gameOver g = true -> gameOver (snd (endTurn s g)) = true /\ winner (snd (endTurn s g)) = winner g).
Proof.
  intros I.
  destruct (negb (side_eqb (currentTurn g) s)) eqn:En; [unfold endTurn; rewrite En; simpl; auto|].
  set (g1 := update_player P1 clearTempImmune (update_player P0 clearTempImmune g)).
  set (g2 := set_totalTurns (totalTurns g1 + 1) (set_currentTurn (other (currentTurn g1)) g1)).
  set (g3 := if side_eqb (currentTurn g2) P0 then set_turnNumber (turnNumber g2 + 1) g2 else g2).
  assert (E : snd (endTurn s g) = startNewTurn (currentTurn g3) g3)
    by (unfold endTurn; rewrite En; reflexivity).
  rewrite E. clear E.
  assert (P1 : Pres g g1) by (eapply Pres_trans; apply Pres_clearTempImmune).
  destruct P1 as (I1 & W1 & C1 & T1 & N1). specialize (I1 I). clearbody g1.
  assert (I3 : inv g3 /\ (gameOver g1 = true -> gameOver g3 = true /\ winner g3 = winner g1)).
  { destruct I1 as [Ip Il Iw It].
    unfold g3, g2; destruct (currentTurn g1) eqn:Ec;
      cbn [side_eqb other currentTurn set_totalTurns set_currentTurn set_turnNumber turnNumber totalTurns].
    - split; [constructor; [intros x; exact (Ip x)|exact Il|exact Iw|]|auto].
      unfold set_totalTurns, set_currentTurn, set_turnNumber.
      cbn [totalTurns turnNumber currentTurn index]. rewrite It. cbn [index]. lia.
    - split; [constructor; [intros x; exact (Ip x)|exact Il|exact Iw|]|auto].
      unfold set_totalTurns, set_currentTurn, set_turnNumber.
      cbn [totalTurns turnNumber currentTurn index]. rewrite It. cbn [index]. lia. }
  destruct I3 as [I3 W3].
  destruct (Pres_startNewTurn (currentTurn g3) g3 I3) as (I4 & W4 & _).
  split; [auto|]. intros Hg.
  destruct (W1 Hg) as [Hg1 Hw1]. destruct (W3 Hg1) as [Hg3 Hw3]. destruct (W4 Hg3). split; congruence.
Qed.

(** *** Shuffling permutes the deck *)

Lemma set_nth_app {A} (l1 l2 : list A) x y :
  set_nth (length l1) x (l1 ++ y :: l2)%list = (l1 ++ x :: l2)%list.
Proof. induction l1 as [|a l1 IH]; simpl; [reflexivity|now rewrite IH]. Qed.

Lemma set_nth_same {A} n (l : list A) x : nth_error l n = Some x -> set_nth n x l = l.
Proof.
  revert n; induction l as [|a l IH]; intros [|n] H; simpl in *; try discriminate.
  - now injection H as ->.
  - now rewrite IH.
Qed.

Lemma perm_exchange {A} (l1 m1 m2 : list A) a b :
  Permutation (l1 ++ a :: m1 ++ b :: m2)%list (l1 ++ b :: m1 ++ a :: m2)%list.
Proof.
  apply Permutation_app_head.
  eapply perm_trans; [apply perm_skip, Permutation_sym, Permutation_middle|].
  eapply perm_trans; [apply perm_swap|]. apply perm_skip, Permutation_middle.
Qed.

Lemma split_two {A} (l : list A) i j a b :
  (i < j)%nat -> nth_error l i = Some a -> nth_error l j = Some b ->
  exists l1 m1 m2, l = (l1 ++ a :: m1 ++ b :: m2)%list /\ length l1 = i /\
                   length (l1 ++ a :: m1) = j.
Proof.
  intros Hij Ei Ej.
  destruct (nth_error_split l i Ei) as (l1 & l2 & -> & L1).
  rewrite nth_error_app2 in Ej by lia.
  replace (j - length l1)%nat with (S (j - i - 1)) in Ej by lia. simpl in Ej.
  destruct (nth_error_split l2 _ Ej) as (m1 & m2 & -> & M1).
  exists l1, m1, m2. split; [reflexivity|split; [exact L1|]].
  rewrite length_app; simpl. lia.
Qed.

Lemma swap_perm {A} i j (l : list A) : Permutation (swap i j l) l.
Proof.
  unfold swap.
  destruct (nth_error l i) as [a|] eqn:Ei; [|reflexivity].
  destruct (nth_error l j) as [b|] eqn:Ej; [|reflexivity].
  destruct (lt_eq_lt_dec i j) as [[Hlt|<-]|Hgt].
  - destruct (split_two l i j a b Hlt Ei Ej) as (l1 & m1 & m2 & -> & L1 & L2).
    rewrite <- L1, set_nth_app, <- L2.
    replace (l1 ++ b :: m1 ++ b :: m2)%list with ((l1 ++ b :: m1) ++ b :: m2)%list
      by (rewrite <- app_assoc; reflexivity).
    replace (length (l1 ++ a :: m1)) with (length (l1 ++ b :: m1))
      by (rewrite !length_app; reflexivity).
    rewrite set_nth_app, <- app_assoc. simpl. apply perm_exchange.
  - rewrite Ei in Ej. injection Ej as ->.
    rewrite (set_nth_same i l b Ei), (set_nth_same i l b Ei). reflexivity.
  - destruct (split_two l j i b a Hgt Ej Ei) as (l1 & m1 & m2 & -> & L1 & L2).
    rewrite <- L2.
    replace (l1 ++ b :: m1 ++ a :: m2)%list with ((l1 ++ b :: m1) ++ a :: m2)%list
      by (rewrite <- app_assoc; reflexivity).
    rewrite set_nth_app, <- app_assoc, <- L1. simpl. rewrite set_nth_app.
    rewrite <- app_assoc. apply perm_exchange.
Qed.

Lemma shuffleLoop_perm {A} rnd n (l : list A) : Permutation (shuffleLoop rnd n l) l.
Proof.
  revert l; induction n as [|n IH]; intros l; simpl; [reflexivity|].
  eapply perm_trans; [apply IH|apply swap_perm].
Qed.

Lemma shuffleDeck_perm {A} rnd (l : list A) : Permutation (shuffleDeck rnd l) l.
Proof. apply shuffleLoop_perm. Qed.

(** *** Deck initialisation and the clock *)

Lemma createCards_props tps g :
  length (fst (createCards tps g)) = length tps /\ Pres g (snd (createCards tps g)) /\
  players (snd (createCards tps g)) = players g /\
  (Forall (fun tp => 0 <= Card.t_attack tp) tps -> Forall cardOK (fst (createCards tps g))).
Proof.
  revert g; induction tps as [|tp tps IH]; intros g; simpl.
  - split; [reflexivity|split; [apply Pres_refl|split; [reflexivity|constructor]]].
  - destruct (createCards tps (set_nextId (S (nextId g)) g)) as [cs g1] eqn:Ec.
    destruct (IH (set_nextId (S (nextId g)) g)) as (L & P & Pl & F). rewrite Ec in L, P, Pl, F.
    simpl in *. split; [lia|split; [|split; [exact Pl|]]].
    + eapply Pres_trans; [apply (Pres_freshId g)|exact P].
    + intros Hf. inversion Hf as [|? ? Htp Hrest]; subst. constructor; [|auto].
      unfold cardOK. rewrite create_attack. exact Htp.
Qed.

Lemma Pres_initPlayerDeck s cards rnd g :
  Forall (fun tp => 0 <= Card.t_attack tp) cards -> Pres g (snd (initPlayerDeck s cards rnd g)).
Proof.
  intros Hc. unfold initPlayerDeck.
  destruct (0 <? _)%nat; [apply Pres_refl|].
  destruct (createCards_props cards g) as (_ & P1 & _ & F1).
  specialize (F1 Hc).
  destruct (createCards cards g) as [cs g1]. cbn [fst snd] in *.
  eapply Pres_trans; [|apply Pres_drawN].
  eapply Pres_trans; [exact P1|]. apply Pres_update. intros B; bnd.
  eapply Permutation_Forall; [apply Permutation_sym, shuffleDeck_perm|exact F1].
Qed.

Lemma Pres_set_now c g : Pres g (set_now c g).
Proof. apply Pres_same; reflexivity. Qed.

(** *** Every reachable match satisfies the invariant *)

Lemma step_pres g g' :
  inv g -> step g g' -> inv g' /\ (gameOver g = true -> gameOver g' = true /\ winner g' = winner g).
Proof.
  intros I H. destruct H as [s cards rnd g Hc|s i tg ac b g g' Hp|s ai ti g|s g|c g].
  - destruct (Pres_initPlayerDeck s cards rnd g Hc) as (A & B & _); auto.
  - destruct (Pres_playCard s i tg ac g b g' I Hp) as (A & B & _); auto.
  - destruct (Pres_processAttack s ai ti g I) as (A & B & _); auto.
  - apply endTurn_inv; exact I.
  - destruct (Pres_set_now c g) as (A & B & _); auto.
Qed.

Lemma inv_create rid clock : inv (create rid clock).
Proof.
  constructor; simpl.
  - intros [|]; constructor; simpl; try lia; constructor.
  - lia.
  - split; auto.
  - reflexivity.
Qed.

Lemma reachable_inv g : reachable g -> inv g.
Proof.
  induction 1 as [rid clock|g g' R IH S].
  - apply inv_create.
  - apply (step_pres g g' IH S).
Qed.

(** * Further properties of the code *)

(** ** Bounds kept by every reachable match *)

(** A reachable match never has more than 7 creatures on a field or more
    than 10 cards in a hand. *)
Theorem reachable_board_limits g :
  reachable g ->
  forall x, (length (Player.field (player x g)) <= 7)%nat /\ (length (Player.hand (player x g)) <= 10)%nat.
Proof.
  intros R x. destruct (i_players g (reachable_inv g R) x). auto.
Qed.

Lemma reachable_board_limits_witness :
  (length (Player.field (player P0 duelReady)) <= 7)%nat /\
  (length (Player.hand (player P0 duelReady)) <= 10)%nat.
Proof. apply (reachable_board_limits duelReady). exact (proj1 (proj2 (proj2 (proj2 duel_reachable)))). Defined.

(** In a reachable match each player's mana is non-negative and the mana
    crystals stay within 0 and 10. *)
Theorem reachable_mana_bounds g :
  reachable g -> forall x, 0 <= Player.mana (player x g) /\ 0 <= Player.maxMana (player x g) <= 10.
Proof.
  intros R x. destruct (i_players g (reachable_inv g R) x). auto.
Qed.

Lemma reachable_mana_bounds_witness :
  0 <= Player.mana (player P1 duelReady) /\ 0 <= Player.maxMana (player P1 duelReady) <= 10.
Proof. apply (reachable_mana_bounds duelReady). exact (proj1 (proj2 (proj2 (proj2 duel_reachable)))). Defined.

(** In a reachable match a player's health never exceeds the maximum,
    which stays 30: every heal is capped. *)
Theorem reachable_health_cap g :
  reachable g -> forall x, Player.health (player x g) <= Player.maxHealth (player x g) /\
                           Player.maxHealth (player x g) = 30.
Proof.
  intros R x. destruct (i_players g (reachable_inv g R) x). auto.
Qed.

Lemma reachable_health_cap_witness :
  Player.health (player P1 duelReady) <= Player.maxHealth (player P1 duelReady) /\
  Player.maxHealth (player P1 duelReady) = 30.
Proof. apply (reachable_health_cap duelReady). exact (proj1 (proj2 (proj2 (proj2 duel_reachable)))). Defined.

(** The match log of a reachable match holds at most 20 entries. *)
Theorem reachable_log_bound g : reachable g -> (length (gameLog g) <= 20)%nat.
Proof. intros R. apply (i_log g (reachable_inv g R)). Qed.

Lemma reachable_log_bound_witness : (length (gameLog duelReady) <= 20)%nat.
Proof. apply (reachable_log_bound duelReady). exact (proj1 (proj2 (proj2 (proj2 duel_reachable)))). Defined.

(** In a reachable match the turn counters agree: [totalTurns] is
    [2 * turnNumber - 1] during player 1's turn and one more during
    player 2's turn. *)
Theorem reachable_turn_counters g :
  reachable g -> totalTurns g = 2 * turnNumber g - 1 + index (currentTurn g).
Proof. intros R. apply (i_turns g (reachable_inv g R)). Qed.

Lemma reachable_turn_counters_witness :
  totalTurns duelReady = 2 * turnNumber duelReady - 1 + index (currentTurn duelReady).
Proof. apply (reachable_turn_counters duelReady). exact (proj1 (proj2 (proj2 (proj2 duel_reachable)))). Defined.

(** In a reachable match a winner is recorded exactly when the game is
    over. *)
Theorem reachable_winner_iff_over g : reachable g -> (gameOver g = false <-> winner g = None).
Proof. intros R. apply (i_winner g (reachable_inv g R)). Qed.

Lemma reachable_winner_iff_over_witness :
  gameOver duelReady = false <-> winner duelReady = None.
Proof. apply (reachable_winner_iff_over duelReady). exact (proj1 (proj2 (proj2 (proj2 duel_reachable)))). Defined.

(** Once a match satisfying the invariant (every reachable one does) is
    over, no further message reopens it or changes its winner. *)
Theorem game_over_final g g' :
  inv g -> step g g' -> gameOver g = true -> gameOver g' = true /\ winner g' = winner g.
Proof. intros I S. apply (step_pres g g' I S). Qed.

Lemma game_over_final_witness :
  let g := set_winner (Some P0) (set_gameOver true (create "room" 0)) in
  let g' := snd (endTurn P0 g) in
  gameOver g' = true /\ winner g' = winner g.
Proof.
  intros g g'. apply (game_over_final g g').
  - constructor; simpl; [intros [|]; constructor; simpl; try lia; constructor|lia|split; discriminate|reflexivity].
  - apply st_end.
  - reflexivity.
Defined.

(** In a reachable match every card in a hand, deck or field has a
    non-negative attack, and each player's spell power is non-negative. *)
Theorem reachable_cards_attack_nonneg g :
  reachable g -> forall x,
    Forall (fun c => 0 <= Card.attack c)
      (Player.hand (player x g) ++ Player.deck (player x g) ++ Player.field (player x g))%list /\
    0 <= Player.spellPower (player x g).
Proof.
  intros R x. destruct (i_players g (reachable_inv g R) x) as [_ _ _ _ Sp _ _ H D F].
  split; [|exact Sp]. apply Forall_app; split; [exact H|apply Forall_app; split; assumption].
Qed.

Lemma reachable_cards_attack_nonneg_witness :
  Forall (fun c => 0 <= Card.attack c)
    (Player.hand (player P1 duelReady) ++ Player.deck (player P1 duelReady)
     ++ Player.field (player P1 duelReady))%list /\
  0 <= Player.spellPower (player P1 duelReady).
Proof. apply (reachable_cards_attack_nonneg duelReady). exact (proj1 (proj2 (proj2 (proj2 duel_reachable)))). Defined.

(** Playing a card or attacking in a reachable match never changes whose
    turn it is, nor the turn counters: only [endTurn] moves the turn on. *)
Theorem play_attack_keep_turn g :
  reachable g ->
  (forall s i tg ac b g', playCard s i tg ac g = Some (b, g') ->
     currentTurn g' = currentTurn g /\ turnNumber g' = turnNumber g /\ totalTurns g' = totalTurns g) /\
  (forall s ai ti, let g' := snd (processAttack s ai ti g) in
     currentTurn g' = currentTurn g /\ turnNumber g' = turnNumber g /\ totalTurns g' = totalTurns g).
Proof.
  intros R. pose proof (reachable_inv g R) as I. split.
  - intros s i tg ac b g' H. destruct (Pres_playCard s i tg ac g b g' I H) as (_ & _ & A). exact A.
  - intros s ai ti. destruct (Pres_processAttack s ai ti g I) as (_ & _ & A). exact A.
Qed.

Lemma play_attack_keep_turn_witness :
  let g1 := afterPlay duelReady (playCard P0 0 TNull None duelReady) in
  let g2 := snd (processAttack P0 0 (-1) duelReady) in
  playCard P0 0 TNull None duelReady = Some (true, g1) /\ fst (processAttack P0 0 (-1) duelReady) = true /\
  (currentTurn g1 = currentTurn duelReady /\ turnNumber g1 = turnNumber duelReady /\
   totalTurns g1 = totalTurns duelReady) /\
  (currentTurn g2 = currentTurn duelReady /\ turnNumber g2 = turnNumber duelReady /\
   totalTurns g2 = totalTurns duelReady).
Proof.
  cbv zeta.
  destruct (play_attack_keep_turn duelReady (proj1 (proj2 (proj2 (proj2 duel_reachable))))) as [HP HA].
  assert (E : playCard P0 0 TNull None duelReady =
              Some (true, afterPlay duelReady (playCard P0 0 TNull None duelReady)))
    by (vm_compute; reflexivity).
  split; [exact E|]. split; [vm_compute; reflexivity|].
  split; [exact (HP P0 0 TNull None true _ E) | exact (HA P0 0 (-1))].
Defined.

(** ** Shuffling, drawing and dealing *)

(** [shuffleDeck] only reorders the deck: the result is a permutation of
    its input, whatever the random choices. *)
Theorem shuffleDeck_permutes {A} (rnd : nat -> nat) (deck : list A) :
  Permutation (shuffleDeck rnd deck) deck.
Proof. apply shuffleLoop_perm. Qed.

Lemma drawCard_moves s g :
  let p := player s g in let p' := player s (drawCard s g) in
  (Player.hand p' ++ Player.deck p')%list = (Player.hand p ++ Player.deck p)%list /\
  length (Player.hand p') =
    (length (Player.hand p) + Nat.min 1 (Nat.min (length (Player.deck p)) (10 - length (Player.hand p))))%nat /\
  player (other s) (drawCard s g) = player (other s) g.
Proof.
  destruct (drawCard_fields s g) as (E1 & E2 & _). cbv zeta. rewrite E1, E2.
  unfold drawnHandDeck.
  destruct (Player.deck (player s g)) as [|c rest];
    cbn [Player.hand Player.deck Player.set_deck Player.set_hand fst snd length].
  - split; [reflexivity|split; [lia|reflexivity]].
  - destruct (length (Player.hand (player s g)) <? 10)%nat eqn:Eh;
      cbn [Player.hand Player.deck Player.set_deck Player.set_hand fst snd length].
    + apply Nat.ltb_lt in Eh. rewrite <- app_assoc, length_app.
      split; [reflexivity|split; [cbn [length]; lia|reflexivity]].
    + apply Nat.ltb_ge in Eh. split; [reflexivity|split; [cbn [length]; lia|reflexivity]].
Qed.

Lemma drawN_moves n s g :
  let p := player s g in let p' := player s (drawN n s g) in
  (Player.hand p' ++ Player.deck p')%list = (Player.hand p ++ Player.deck p)%list /\
  length (Player.hand p') =
    (length (Player.hand p) + Nat.min n (Nat.min (length (Player.deck p)) (10 - length (Player.hand p))))%nat /\
  player (other s) (drawN n s g) = player (other s) g.
Proof.
  revert g; induction n as [|n IH]; intros g; cbv zeta; simpl drawN.
  - split; [reflexivity|split; [lia|reflexivity]].
  - destruct (drawCard_moves s g) as (A1 & L1 & O1).
    destruct (IH (drawCard s g)) as (A2 & L2 & O2). cbv zeta in *.
    split; [congruence|split; [|congruence]].
    rewrite L2. rewrite L1.
    assert (Hl : length (Player.deck (player s (drawCard s g))) =
                 (length (Player.deck (player s g)) -
                  Nat.min 1 (Nat.min (length (Player.deck (player s g))) (10 - length (Player.hand (player s g)))))%nat).
    { apply (f_equal (@length Card.t)) in A1. rewrite !length_app, L1 in A1. lia. }
    rewrite Hl. lia.
Qed.

(** Drawing [n] cards moves cards from the top of the deck to the end of
    the hand, in order: the hand followed by the deck is unchanged, the
    hand grows by [n] cards unless the deck runs out or the hand reaches
    10 first, and the other player is untouched. *)
Theorem drawN_deals_from_top n s g :
  let p := player s g in let p' := player s (drawN n s g) in
  (Player.hand p' ++ Player.deck p')%list = (Player.hand p ++ Player.deck p)%list /\
  length (Player.hand p') =
    (length (Player.hand p) + Nat.min n (Nat.min (length (Player.deck p)) (10 - length (Player.hand p))))%nat /\
  player (other s) (drawN n s g) = player (other s) g.
Proof. apply drawN_moves. Qed.

(** [initPlayerDeck] on a player whose deck is not empty is refused with
    [false] and changes nothing. *)
Theorem initPlayerDeck_rejects_initialized s cards rnd g :
  Player.deck (player s g) <> [] -> initPlayerDeck s cards rnd g = (false, g).
Proof.
  intros Hd. unfold initPlayerDeck.
  destruct (Player.deck (player s g)) as [|c rest]; [congruence|reflexivity].
Qed.


Lemma initPlayerDeck_rejects_initialized_witness :
  let g := update_player P0 (Player.set_deck [Card.create "card0" grunt]) (create "room" 0) in
  initPlayerDeck P0 [grunt] (fun _ => O) g = (false, g).
Proof. intros g. apply initPlayerDeck_rejects_initialized. discriminate. Defined.

(** Dealing a deck to a player with an empty deck and an empty hand
    creates one card per entry, shuffles them, and draws an opening hand
    of [min 5 n] cards from the top; the hand and the rest of the deck
    together are the created cards, and the result is [true] exactly when
    more than 5 cards were given and the opponent's deck is not empty. *)
Theorem initPlayerDeck_deals s cards rnd g :
  Player.deck (player s g) = [] -> Player.hand (player s g) = [] ->
  let g' := snd (initPlayerDeck s cards rnd g) in
  let p' := player s g' in
  Permutation (Player.hand p' ++ Player.deck p')%list (fst (createCards cards g)) /\
  length (Player.hand p') = Nat.min 5 (length cards) /\
  (fst (initPlayerDeck s cards rnd g) = true <->
   (5 < length cards)%nat /\ (0 < length (Player.deck (player (other s) g)))%nat).
Proof.
  intros Hd Hh. unfold initPlayerDeck. rewrite Hd.
  replace ((0 <? length (@nil Card.t))%nat) with false by reflexivity. cbv beta iota.
  destruct (createCards_props cards g) as (L & _ & Pl & _).
  destruct (createCards cards g) as [cs g1]. cbn [fst snd] in *.
  set (g2 := update_player s (Player.set_deck (shuffleDeck rnd cs)) g1).
  destruct (drawN_moves 5 s g2) as (A & Ln & O). cbv zeta in A, Ln.
  assert (Ps : player s g2 = Player.set_deck (shuffleDeck rnd cs) (player s g)).
  { unfold g2. rewrite player_update_same. f_equal. apply player_players; exact Pl. }
  assert (Po : player (other s) g2 = player (other s) g).
  { unfold g2. rewrite player_update_other. apply player_players; exact Pl. }
  rewrite Ps in A, Ln. cbn [Player.hand Player.deck Player.set_deck] in A, Ln.
  rewrite Hh in A, Ln. cbn [app length] in A, Ln.
  pose proof (Permutation_length (shuffleDeck_perm rnd cs)) as Lp.
  split; [rewrite A; apply shuffleDeck_perm|split; [rewrite Ln, Lp, L; lia|]].
  assert (Ld : length (Player.deck (player s (drawN 5 s g2))) = (length cards - Nat.min 5 (length cards))%nat).
  { apply (f_equal (@length Card.t)) in A. rewrite length_app, Ln, Lp, L in A. lia. }
  destruct s; cbn [other] in *; rewrite ?Ld, ?O, ?Po;
    rewrite andb_true_iff, !Nat.ltb_lt; lia.
Qed.

Lemma initPlayerDeck_deals_witness :
  let g' := snd (initPlayerDeck P0 (repeat grunt 7) (fun i => i) (create "room" 0)) in
  let p' := player P0 g' in
  Permutation (Player.hand p' ++ Player.deck p')%list (fst (createCards (repeat grunt 7) (create "room" 0))) /\
  length (Player.hand p') = Nat.min 5 (length (repeat grunt 7)) /\
  (fst (initPlayerDeck P0 (repeat grunt 7) (fun i => i) (create "room" 0)) = true <->
   (5 < length (repeat grunt 7))%nat /\ (0 < length (Player.deck (player (other P0) (create "room" 0))))%nat).
Proof. apply initPlayerDeck_deals; reflexivity. Defined.

(** ** Game over, deaths and the log *)

(** [checkGameOver] examines player 1 first: when both players are at 0
    health or below in an undecided game, player 2 is declared the
    winner. *)
Theorem checkGameOver_both_dead g :
  gameOver g = false -> Player.health (player P0 g) <= 0 -> Player.health (player P1 g) <= 0 ->
  fst (checkGameOver g) = true /\ gameOver (snd (checkGameOver g)) = true /\
  winner (snd (checkGameOver g)) = Some P1.
Proof.
  intros Hg H0 H1. unfold checkGameOver. rewrite Hg.
  replace (Player.health (player P0 g) <=? 0) with true by (symmetry; apply Z.leb_le; exact H0).
  repeat split.
Qed.

Lemma checkGameOver_both_dead_witness :
  let g := update_player P1 (Player.set_health 0) (update_player P0 (Player.set_health (-3)) (create "room" 0)) in
  fst (checkGameOver g) = true /\ gameOver (snd (checkGameOver g)) = true /\
  winner (snd (checkGameOver g)) = Some P1.
Proof. intros g. apply checkGameOver_both_dead; simpl; [reflexivity|lia|lia]. Defined.

(** On a decided game [checkGameOver] reports nothing and changes
    nothing, whatever the players' health. *)
Theorem checkGameOver_decided_noop g : gameOver g = true -> checkGameOver g = (false, g).
Proof.
  intros Hg. unfold checkGameOver. rewrite Hg, !andb_false_r. reflexivity.
Qed.

Lemma checkGameOver_decided_noop_witness :
  let g := update_player P1 (Player.set_health 0) (set_gameOver true (create "room" 0)) in
  checkGameOver g = (false, g).
Proof. intros g. apply checkGameOver_decided_noop. reflexivity. Defined.


Lemma fieldGrave_drawCard s g x : fieldGrave (player x (drawCard s g)) = fieldGrave (player x g).
Proof.
  unfold drawCard. destruct (Player.deck (player s g)); [reflexivity|].
  destruct (_ <? 10)%nat; [|reflexivity].
  rewrite player_addLog, player_update. destruct (side_eqb s x); reflexivity.
Qed.

Lemma sweep_graveyard s cs g :
  fst (sweep s cs g) = filter (fun c => negb (Card.health c <=? 0)) cs /\
  forall x, Player.field (player x (snd (sweep s cs g))) = Player.field (player x g) /\
            Player.graveyard (player x (snd (sweep s cs g))) =
            (Player.graveyard (player x g) ++
             (if side_eqb s x then filter (fun c => Card.health c <=? 0) cs else []))%list.
Proof.
  revert g; induction cs as [|c cs IH]; intros g.
  - split; [reflexivity|]. intros x. destruct (side_eqb s x); cbn [filter]; rewrite app_nil_r; auto.
  - cbn [sweep filter]. destruct (Card.health c <=? 0) eqn:Eh; cbn [negb].
    + match goal with |- context [sweep s cs (push_graveyard s c ?G)] => set (g3 := G) end.
      assert (K : forall x, fieldGrave (player x g3) = fieldGrave (player x g)).
      { intros x. unfold g3. unfold freshId. cbv beta iota.
        repeat first
          [ progress rewrite ?player_addLog, ?player_set_nextId, ?fieldGrave_drawCard
          | rewrite player_update
          | match goal with |- context [if ?b then _ else _] => destruct b end
          | match goal with |- context [fieldGrave (Player.set_hand ?h ?p)] =>
              change (fieldGrave (Player.set_hand h p)) with (fieldGrave p) end ];
        reflexivity. }
      destruct (IH (push_graveyard s c g3)) as [F G]. split; [exact F|].
      intros x. destruct (G x) as [G1 G2]. rewrite G1, G2.
      unfold push_graveyard. rewrite player_update.
      specialize (K x). unfold fieldGrave in K. injection K as K1 K2.
      destruct (side_eqb s x); cbn [Player.field Player.graveyard Player.set_graveyard];
        rewrite K1, K2; [rewrite <- app_assoc; split; reflexivity|split; reflexivity].
    + destruct (sweep s cs g) as [kept g1] eqn:Es.
      destruct (IH g) as [F G]. rewrite Es in F, G. cbn [fst snd] in *. rewrite F.
      split; [reflexivity|exact G].
Qed.

Lemma sweepSide_graveyard s g x :
  Player.field (player x (sweepSide s g)) =
    (if side_eqb s x then filter (fun c => negb (Card.health c <=? 0)) (Player.field (player s g))
     else Player.field (player x g)) /\
  Player.graveyard (player x (sweepSide s g)) =
    (Player.graveyard (player x g) ++
     (if side_eqb s x then filter (fun c => Card.health c <=? 0) (Player.field (player s g)) else []))%list.
Proof.
  unfold sweepSide. destruct (sweep_graveyard s (Player.field (player s g)) g) as [F G].
  destruct (sweep s (Player.field (player s g)) g) as [kept g1]. cbn [fst snd] in *.
  destruct (G x) as [G1 G2]. rewrite player_update.
  destruct (side_eqb s x); cbn [Player.field Player.graveyard Player.set_field]; rewrite ?G1, G2; auto.
Qed.

(** [checkCreatureDeaths] keeps on each field, in order, exactly the
    creatures with positive health, and appends the others, in field
    order, to the same player's graveyard. *)
Theorem checkCreatureDeaths_sweeps_fields g x :
  Player.field (player x (checkCreatureDeaths g)) =
    filter (fun c => negb (Card.health c <=? 0)) (Player.field (player x g)) /\
  Player.graveyard (player x (checkCreatureDeaths g)) =
    (Player.graveyard (player x g) ++ filter (fun c => Card.health c <=? 0) (Player.field (player x g)))%list.
Proof.
  unfold checkCreatureDeaths.
  assert (U : forall g', fieldGrave (player x (updateSpellPower g')) = fieldGrave (player x g'))
    by (intros g'; destruct x; reflexivity).
  specialize (U (sweepSide P1 (sweepSide P0 g))). unfold fieldGrave in U. injection U as U1 U2.
  rewrite U1, U2.
  destruct (sweepSide_graveyard P1 (sweepSide P0 g) x) as [A1 A2].
  destruct (sweepSide_graveyard P0 g x) as [B1 B2].
  destruct (sweepSide_graveyard P0 g P1) as [C1 C2].
  rewrite A1, A2. destruct x; cbn [side_eqb] in *.
  - rewrite B1, B2, app_nil_r. auto.
  - rewrite C1, B2, app_nil_r. auto.
Qed.

Lemma lastn_suffix {A} n (l : list A) :
  (exists pre, l = (pre ++ lastn n l)%list) /\ length (lastn n l) = Nat.min n (length l).
Proof.
  unfold lastn. split.
  - exists (firstn (length l - n) l). symmetry. apply firstn_skipn.
  - rewrite length_skipn. lia.
Qed.

(** [addLog] appends the new entry and keeps only the newest entries: the
    log becomes the last [min 20 (k + 1)] entries of the old log followed
    by the new one. *)
Theorem addLog_keeps_newest m g :
  let e := {| message := m; timestamp := now g; turn := turnNumber g;
              activePlayer := index (currentTurn g) + 1 |} in
  (exists pre, (gameLog g ++ [e])%list = (pre ++ gameLog (addLog m g))%list) /\
  length (gameLog (addLog m g)) = Nat.min 20 (length (gameLog g) + 1).
Proof.
  intros e. unfold addLog. cbn [gameLog set_gameLog]. fold e.
  destruct (20 <? length (gameLog g ++ [e]))%nat eqn:E.
  - apply Nat.ltb_lt in E. destruct (lastn_suffix 20 (gameLog g ++ [e])) as [S L].
    split; [exact S|]. rewrite L, length_app in *. cbn [length] in *. lia.
  - apply Nat.ltb_ge in E. split; [exists []; reflexivity|]. rewrite length_app in *. cbn [length] in *. lia.
Qed.

(** The log sent by [getGameState] is the newest [min 5 k] entries of the
    match log, in order. *)
Theorem getGameState_log_tail g :
  (exists pre, gameLog g = (pre ++ v_gameLog (getGameState g))%list) /\
  length (v_gameLog (getGameState g)) = Nat.min 5 (length (gameLog g)).
Proof. apply lastn_suffix. Qed.

(** ** Card methods *)

Lemma create_fields f tp :
  Card.name (Card.create f tp) = Card.t_name tp /\ Card.cost (Card.create f tp) = Card.t_cost tp /\
  Card.type (Card.create f tp) = Card.t_type tp /\ Card.attack (Card.create f tp) = Card.t_attack tp /\
  Card.maxHealth (Card.create f tp) = Card.t_health tp /\ Card.ability (Card.create f tp) = Card.t_ability tp /\
  Card.emoji (Card.create f tp) = Card.t_emoji tp /\ Card.rarity (Card.create f tp) = Card.t_rarity tp.
Proof.
  unfold Card.create; cbv zeta.
  repeat (match goal with |- context [if ?b then _ else _] => destruct b end); repeat split.
Qed.

(** Cloning a clone gives the same card as cloning the original (up to
    the fresh id): [clone] keeps only the catalog fields and resets all
    combat state and damage. *)
Theorem clone_of_clone f f' c : Card.clone f (Card.clone f' c) = Card.clone f c.
Proof.
  unfold Card.clone at 1.
  destruct (create_fields f' {| Card.t_name := Card.name c; Card.t_cost := Card.cost c;
      Card.t_type := Card.type c; Card.t_attack := Card.attack c; Card.t_health := Card.maxHealth c;
      Card.t_ability := Card.ability c; Card.t_emoji := Card.emoji c; Card.t_rarity := Card.rarity c |})
    as (N & C & T & A & M & Ab & Em & R).
  unfold Card.clone in *. cbn [Card.t_name Card.t_cost Card.t_type Card.t_attack Card.t_health
      Card.t_ability Card.t_emoji Card.t_rarity] in *.
  rewrite N, C, T, A, M, Ab, Em, R. reflexivity.
Qed.

(** After [resetForTurn] a creature can attack unless it was frozen and
    tapped: a frozen creature thaws but stays tapped for this turn. *)
Theorem resetForTurn_canAttack c :
  Card.canAttack (Card.resetForTurn c) = negb (Card.frozen c && Card.tapped c).
Proof.
  unfold Card.resetForTurn, Card.canAttack. cbv zeta.
  destruct (Card.frozen c) eqn:Ef; cbn [andb negb];
    match goal with |- context [if streq ?a ?b then _ else _] => destruct (streq a b) end;
    cbn; rewrite ?Ef; destruct (Card.tapped c); reflexivity.
Qed.

(** [takeDamage] on a creature with non-negative health deals between 0
    and the requested amount, and lowers health by exactly the damage it
    reports. *)
Theorem takeDamage_reports_damage amount c :
  0 <= Card.health c ->
  let (dealt, c') := Card.takeDamage amount c in
  0 <= dealt <= Z.max 0 amount /\ Card.health c' = Card.health c - dealt.
Proof.
  intros Hh. unfold Card.takeDamage.
  destruct (amount <=? 0) eqn:E0; [split; [lia|simpl; lia]|].
  apply Z.leb_gt in E0.
  destruct (_ || _); [split; [lia|simpl; lia]|].
  destruct (Card.divineShield c); [split; [lia|simpl; lia]|].
  cbv zeta. destruct (_ && _ && _ && _); (split; [lia|reflexivity]).
Qed.

Lemma takeDamage_reports_damage_witness :
  let (dealt, c') := Card.takeDamage 5 (Card.create "card0" grunt) in
  0 <= dealt <= Z.max 0 5 /\ Card.health c' = Card.health (Card.create "card0" grunt) - dealt.
Proof. apply takeDamage_reports_damage. simpl. lia. Defined.

(** ** Attacks on the opposing player *)

Lemma side_eqb_other s : side_eqb s (other s) = false.
Proof. destruct s; reflexivity. Qed.

Lemma side_eqb_same s : side_eqb s s = true.
Proof. destruct s; reflexivity. Qed.

(** An accepted attack on the opposing player (target [-1]) lowers that
    player's health by exactly the attacker's attack; Lifesteal heals the
    attacking player only. *)
Theorem processAttack_face_damage s ai g a g' :
  nth_error (Player.field (player s g)) (Z.to_nat ai) = Some a ->
  processAttack s ai (-1) g = (true, g') ->
  Player.health (player (other s) g') = Player.health (player (other s) g) - Card.attack a.
Proof.
  intros Ea H. unfold processAttack in H.
  destruct (_ || _); [discriminate|]. rewrite Ea in H.
  destruct (negb _); [discriminate|].
  destruct (_ && _); [discriminate|].
  destruct (_ && _); [discriminate|].
  destruct (targetRejection _ _ _); [discriminate|].
  rewrite Z.eqb_refl in H.
  destruct (Card.stealth a); cbv beta iota zeta in H; injection H as <-;
    rewrite (player_players _ _ _ (players_checkGameOver _));
    match goal with |- context [if ?b then _ else _] => destruct b end;
    unfold set_field_at;
    repeat progress (rewrite ?player_addLog, ?player_update, ?side_eqb_other, ?side_eqb_same; cbv beta iota);
    cbn [Player.health Player.set_health]; rewrite markAttacked_attack; reflexivity.
Qed.

Lemma processAttack_face_damage_witness :
  let g := update_player P0 (Player.set_field [Card.create "card0" grunt]) (create "room" 0) in
  Player.health (player (other P0) (snd (processAttack P0 0 (-1) g))) =
  Player.health (player (other P0) g) - Card.attack (Card.create "card0" grunt).
Proof.
  intros g. apply (processAttack_face_damage P0 0 g (Card.create "card0" grunt)).
  - reflexivity.
  - vm_compute. reflexivity.
Defined.

(** ** Creatures entering play *)






(** ** Spells *)

(** [handleSpell] throws exactly for a damage or heal spell whose ability
    text holds no digit, and for a damage spell aimed at a fractional
    index that passes the range test of the opposing field; every other
    call returns normally. *)
Theorem handleSpell_throws_iff s card tg g :
  handleSpell s card tg g = None <->
  ((includes (Card.ability card) "Deal" || includes (Card.ability card) "Restore") = true /\
   match_digits (Card.ability card) = None) \/
  (includes (Card.ability card) "Deal" = true /\ match_digits (Card.ability card) <> None /\
   exists n, tg = TFrac n /\ in_range n (Player.field (player (other s) g)) = true).
Proof.
  unfold handleSpell. cbv zeta.
  destruct (includes (Card.ability card) "Deal"); cbn [orb].
  - destruct (match_digits (Card.ability card)); [|split; auto].
    split.
    + intros H. right. split; [reflexivity|]. split; [discriminate|].
      destruct tg; cbn [nullDefault targetsOpponent] in H; try discriminate.
      * destruct (_ =? -1); [discriminate|]. revert H.
        destruct (in_range _ _); [|discriminate].
        destruct (nth_error _ _); [|discriminate].
        destruct (Card.takeDamage _ _). destruct (includes _ "Freeze"); discriminate.
      * destruct (in_range n _) eqn:E; [eauto|discriminate].
    + intros [[_ H] | [_ [_ [n [-> E]]]]]; [discriminate|].
      cbn [nullDefault targetsOpponent]. rewrite E. reflexivity.
  - destruct (includes (Card.ability card) "Restore").
    + destruct (match_digits (Card.ability card)); split; try discriminate; auto.
      intros [[_ H] | [H _]]; discriminate.
    + split; [|intros [[H _] | [H _]]; discriminate].
      destruct (_ || _); [discriminate|]. destruct (includes _ "Draw"); discriminate.
Qed.

(** A damage spell aimed at the opposing player deals the number written
    in its text plus the caster's spell power. *)
Theorem handleSpell_deal_face s card g d :
  includes (Card.ability card) "Deal" = true -> match_digits (Card.ability card) = Some d ->
  exists g', handleSpell s card TOpponent g = Some g' /\
    Player.health (player (other s) g') =
    Player.health (player (other s) g) - (parseInt d + Player.spellPower (player s g)).
Proof.
  intros Hd Hm. unfold handleSpell. rewrite Hd, Hm. cbn [targetsOpponent].
  eexists. split; [reflexivity|].
  rewrite (player_players _ _ _ (players_checkGameOver _)), player_addLog, player_update_same.
  reflexivity.
Qed.


Lemma handleSpell_deal_face_witness :
  exists g', handleSpell P0 (Card.create "card0" meteor) TOpponent (create "room" 0) = Some g' /\
    Player.health (player (other P0) g') =
    Player.health (player (other P0) (create "room" 0)) - (parseInt "6" + Player.spellPower (player P0 (create "room" 0))).
Proof. apply handleSpell_deal_face; reflexivity. Defined.

(** ** Costs *)

(** The cost [playCard] charges by default is the card's displayed cost
    for the player's spell count, and for a non-negative base cost and
    spell count it lies between 0 and the base cost. *)
Theorem getCardCost_display_bounds card s g :
  0 <= Card.cost card -> 0 <= Player.spellsCount (player s g) ->
  getCardCost card s g = Card.getDisplayCost (Player.spellsCount (player s g)) card /\
  0 <= getCardCost card s g <= Card.cost card.
Proof.
  intros Hc Hs. unfold getCardCost, Card.getDisplayCost.
  destruct (streq _ _); split; [reflexivity|lia|reflexivity|lia].
Qed.

Lemma getCardCost_display_bounds_witness :
  let card := Card.create "card0" meteor in
  let g := update_player P0 (Player.set_spellsCount 2) (create "room" 0) in
  getCardCost card P0 g = Card.getDisplayCost (Player.spellsCount (player P0 g)) card /\
  0 <= getCardCost card P0 g <= Card.cost card.
Proof. intros card g. apply getCardCost_display_bounds; simpl; lia. Defined.
